(** * MySnooze: interruptible watchdog sleep for MySensors nodes

    A shallow embedding of [src/src/MySnooze.cpp] and the properties of
    its sleep scheduler.

    The C code runs on an 8-bit AVR.  Its state is a handful of global
    variables and hardware registers; its collaborators are the hardware
    sleep instruction (during which an application interrupt routine may
    write the flag [wokeUpWhy]), the optional application callback
    [tick()], and the MySensors core (transport readiness, [_process()],
    heartbeat, indication).  The embedding threads the globals through a
    state record, reads the collaborators from an [environment] of
    oracles, and collects the externally visible actions of a call in a
    list of events. *)

From Stdlib Require Import ZArith List Bool Lia.
From Equations Require Import Equations.
Import ListNotations.
Local Open Scope Z_scope.

(** ** Machine integers *)

(** Conversion to [uint8_t], [uint32_t] ([unsigned long] on AVR) and
    [int8_t] (two's complement, as avr-gcc converts). *)
Definition uint8 (z : Z) : Z := z mod 256.
Definition uint32 (z : Z) : Z := z mod 4294967296.
Definition int8 (z : Z) : Z := (z + 128) mod 256 - 128.

(** ** Constants *)

(** Watchdog timeout selectors of avr-libc's <avr/wdt.h>. *)
Definition WDTO_15MS : Z := 0.
Definition WDTO_30MS : Z := 1.
Definition WDTO_60MS : Z := 2.
Definition WDTO_120MS : Z := 3.
Definition WDTO_250MS : Z := 4.
Definition WDTO_500MS : Z := 5.
Definition WDTO_1S : Z := 6.
Definition WDTO_2S : Z := 7.
Definition WDTO_4S : Z := 8.
Definition WDTO_8S : Z := 9.

(** [#define WDTO_SLEEP_FOREVER (0xFFu)] *)
Definition WDTO_SLEEP_FOREVER : Z := 255.

(** Bit number of the ADC enable bit in ADCSRA (avr/io.h). *)
Definition ADEN : Z := 7.

(** Constants of the MySensors library the file is compiled against.
    They are not defined in this repository, so every definition below
    is parametric in them. *)
Record config : Type := mkConfig {
  MY_WAKE_UP_BY_TIMER : Z;
  MY_SLEEP_NOT_POSSIBLE : Z;
  MY_SLEEP_TRANSPORT_RECONNECT_TIMEOUT_MS : Z;
  MY_SMART_SLEEP_WAIT_DURATION_MS : Z;
  MY_DISABLED_SERIAL : bool
}.

(** The values MySensors ships (core/MySensorsCore.h, MyConfig.h). *)
Definition mysensors : config :=
  {| MY_WAKE_UP_BY_TIMER := -1;
     MY_SLEEP_NOT_POSSIBLE := -2;
     MY_SLEEP_TRANSPORT_RECONNECT_TIMEOUT_MS := 10000;
     MY_SMART_SLEEP_WAIT_DURATION_MS := 500;
     MY_DISABLED_SERIAL := false |}.

(** ** Program state *)

(** The globals and registers the code touches, and four counters that
    say how many answers of each oracle have been consumed. *)
Record world : Type := mkWorld {
  wokeUpWhy : Z;        (* volatile uint8_t wokeUpWhy *)
  timer0_millis : Z;    (* volatile unsigned long timer0_millis *)
  ADCSRA : Z;           (* ADC control and status register A *)
  ADENsave : Z;         (* static uint8_t ADENsave *)
  WDTCSR : Z;           (* watchdog control register *)
  naps : nat;           (* calls of _doPowerDown so far *)
  ticks : nat;          (* calls of tick so far *)
  polls : nat;          (* calls of isTransportReady so far *)
  procs : nat           (* calls of _process so far *)
}.

Definition set_wokeUpWhy (v : Z) (w : world) : world :=
  mkWorld v (timer0_millis w) (ADCSRA w) (ADENsave w) (WDTCSR w)
          (naps w) (ticks w) (polls w) (procs w).
Definition set_timer0_millis (v : Z) (w : world) : world :=
  mkWorld (wokeUpWhy w) v (ADCSRA w) (ADENsave w) (WDTCSR w)
          (naps w) (ticks w) (polls w) (procs w).
Definition set_ADCSRA (v : Z) (w : world) : world :=
  mkWorld (wokeUpWhy w) (timer0_millis w) v (ADENsave w) (WDTCSR w)
          (naps w) (ticks w) (polls w) (procs w).
Definition set_ADENsave (v : Z) (w : world) : world :=
  mkWorld (wokeUpWhy w) (timer0_millis w) (ADCSRA w) v (WDTCSR w)
          (naps w) (ticks w) (polls w) (procs w).
Definition set_WDTCSR (v : Z) (w : world) : world :=
  mkWorld (wokeUpWhy w) (timer0_millis w) (ADCSRA w) (ADENsave w) v
          (naps w) (ticks w) (polls w) (procs w).
Definition set_naps (n : nat) (w : world) : world :=
  mkWorld (wokeUpWhy w) (timer0_millis w) (ADCSRA w) (ADENsave w) (WDTCSR w)
          n (ticks w) (polls w) (procs w).
Definition set_ticks (n : nat) (w : world) : world :=
  mkWorld (wokeUpWhy w) (timer0_millis w) (ADCSRA w) (ADENsave w) (WDTCSR w)
          (naps w) n (polls w) (procs w).
Definition set_polls (n : nat) (w : world) : world :=
  mkWorld (wokeUpWhy w) (timer0_millis w) (ADCSRA w) (ADENsave w) (WDTCSR w)
          (naps w) (ticks w) n (procs w).
Definition set_procs (n : nat) (w : world) : world :=
  mkWorld (wokeUpWhy w) (timer0_millis w) (ADCSRA w) (ADENsave w) (WDTCSR w)
          (naps w) (ticks w) (polls w) n.

(** ** Environment *)

(** What the outside does.
    - [isr n]: what interrupt context does to [wokeUpWhy] while the n-th
      hardware sleep lasts: [Some v] stores [v], [None] leaves it alone
      (the watchdog expired, or an interrupt that does not touch the flag
      woke the processor).
    - [tick]: the weak symbol [tick]; [None] when the application does
      not define it, otherwise the value its n-th call returns.
    - [transport n]: the answer of the n-th call of [isTransportReady()].
    - [process_ms n]: the milliseconds that pass during the n-th call of
      [_process()]. *)
Record environment : Type := mkEnv {
  isr : nat -> option Z;
  tick : option (nat -> Z);
  transport : nat -> bool;
  process_ms : nat -> Z
}.

(** ** Events *)

Inductive indication : Type := INDICATION_SLEEP | INDICATION_WAKEUP.

(** The visible actions of a run.  A power-down records the watchdog
    selector and the value of [wokeUpWhy] when the processor went to sleep
    and when it woke; a tick records the value the callback returned. *)
Inductive event : Type :=
| EvFlush
| EvPowerDown (wdto entry wake : Z)
| EvTick (why : Z)
| EvProcess
| EvHeartbeat
| EvWait (ms : Z)
| EvTransportDisable
| EvIndication (i : indication).

(** ** A state-and-log monad, and early return *)

Definition M (A : Type) : Type := world -> A * world * list event.

Definition ret {A} (a : A) : M A := fun w => (a, w, []).

Definition bind {A B} (m : M A) (k : A -> M B) : M B :=
  fun w =>
    let '(a, w1, e1) := m w in
    let '(b, w2, e2) := k a w1 in
    (b, w2, e1 ++ e2).

Definition read {A} (f : world -> A) : M A := fun w => (f w, w, []).
Definition write (f : world -> world) : M unit := fun w => (tt, f w, []).
Definition emit (e : event) : M unit := fun w => (tt, w, [e]).

(** A statement of a C function body either executes [return why] or
    falls through to the next statement with a value. *)
Inductive flow (A : Type) : Type :=
| Return (why : Z)
| Next (a : A).
Arguments Return {A} why.
Arguments Next {A} a.

Definition bindF {A B} (m : M (flow A)) (k : A -> M (flow B)) : M (flow B) :=
  fun w =>
    match m w with
    | (Return why, w1, e1) => (Return why, w1, e1)
    | (Next a, w1, e1) =>
        let '(b, w2, e2) := k a w1 in (b, w2, e1 ++ e2)
    end.

(** The value a function body hands to its caller. *)
Definition returned (m : M (flow Z)) : M Z :=
  fun w =>
    match m w with
    | (Return why, w1, e1) => (why, w1, e1)
    | (Next why, w1, e1) => (why, w1, e1)
    end.

Definition prepend {A} (e : list event) (r : A * world * list event)
  : A * world * list event :=
  let '(a, w, e') := r in (a, w, e ++ e').

Declare Scope snooze_scope.
Delimit Scope snooze_scope with snooze.
Notation "x <- m ;; k" := (bind m (fun x => k))
  (at level 61, m at next level, right associativity) : snooze_scope.
Notation "m ;; k" := (bind m (fun _ => k))
  (at level 61, right associativity) : snooze_scope.
Notation "x <~ m ;; k" := (bindF m (fun x => k))
  (at level 61, m at next level, right associativity) : snooze_scope.
Local Open Scope snooze_scope.

(** ** The code *)

Section MySnooze.

Variable cfg : config.
Variable env : environment.

(** [_pre_doPowerDown]: disable the ADC, remember whether it was on. *)
Definition _pre_doPowerDown : M unit :=
  adcsra <- read ADCSRA ;;
  write (set_ADENsave (Z.land adcsra (Z.shiftl 1 ADEN))) ;;
  write (fun w => set_ADCSRA (Z.land (ADCSRA w) (Z.lnot (Z.shiftl 1 ADEN))) w).

(** [_post_doPowerDown]: switch the ADC back on if it was on. *)
Definition _post_doPowerDown : M unit :=
  write (fun w => set_ADCSRA (Z.lor (ADCSRA w) (ADENsave w)) w).

(** [_doPowerDown]: arm the watchdog for [wdto] (or disable it for
    [WDTO_SLEEP_FOREVER]), execute the sleep instruction, and on waking
    put WDTCSR back to the value saved on entry.  While the processor
    sleeps interrupt context may store into [wokeUpWhy]; the function
    itself does not touch the flag. *)
Definition _doPowerDown (wdto : Z) : M unit :=
  fun w =>
    let WDTsave := WDTCSR w in
    let entry := wokeUpWhy w in
    let w1 := match isr env (naps w) with
              | Some v => set_wokeUpWhy (uint8 v) w
              | None => w
              end in
    let w2 := set_naps (S (naps w)) w1 in
    (tt, set_WDTCSR WDTsave w2, [EvPowerDown wdto entry (wokeUpWhy w2)]).

(** [myPowerDown]: sleep once, then correct the millisecond counter
    unless the flag is set. *)
Definition myPowerDown (wdto : Z) (ms : Z) : M Z :=
  _doPowerDown wdto ;;
  flag <- read wokeUpWhy ;;
  if negb (flag =? 0) then ret (int8 flag)
  else
    write (fun w => set_timer0_millis (uint32 (timer0_millis w + ms)) w) ;;
    ret 0.

(** A call of [tick()] through the weak symbol. *)
Definition call_tick (f : nat -> Z) : M Z :=
  fun w =>
    let why := int8 (f (ticks w)) in
    (why, set_ticks (S (ticks w)) w, [EvTick why]).

(** [if (tick && (why = tick())) return why;] *)
Definition tick_or_return : M (flow unit) :=
  match tick env with
  | None => ret (Next tt)
  | Some f =>
      why <- call_tick f ;;
      if negb (why =? 0) then ret (Return why) else ret (Next tt)
  end.

(** [if ((why = myPowerDown(wdto, q))) return why;] *)
Definition nap_or_return (wdto q : Z) : M (flow unit) :=
  why <- myPowerDown wdto q ;;
  if negb (why =? 0) then ret (Return why) else ret (Next tt).

(** [if (ms >= q) { if ((why = myPowerDown(wdto, q))) return why; ms -= q; }] *)
Definition nap (wdto q : Z) (ms : Z) : M (flow Z) :=
  if q <=? ms then
    _ <~ nap_or_return wdto q ;;
    ret (Next (ms - q))
  else ret (Next ms).

(** The loop of [myInternalSleep]:
    [while (ms >= 8000) { nap 8 s; tick; ms -= 8000; }].
    Its result is the value of [ms] when the loop is left. *)
Equations? while_8s (ms : Z) (w : world) : flow Z * world * list event
  by wf (Z.to_nat ms) lt :=
while_8s ms w with Z_le_dec 8000 ms := {
  | right _ => (Next ms, w, []);
  | left _ with (_ <~ nap_or_return WDTO_8S 8000 ;; tick_or_return) w := {
      | (Return why, w1, e1) => (Return why, w1, e1);
      | (Next _, w1, e1) => prepend e1 (while_8s (ms - 8000) w1) } }.
Proof. lia. Qed.

(** [return tick ? tick() : 0;] *)
Definition final_tick : M (flow Z) :=
  match tick env with
  | Some f => why <- call_tick f ;; ret (Return why)
  | None => ret (Return 0)
  end.

(** [myInternalSleep] *)
Definition myInternalSleep (ms : Z) : M Z :=
  returned (
    (if MY_DISABLED_SERIAL cfg then ret tt else emit EvFlush) ;;
    ms <~ while_8s ms ;;
    ms <~ nap WDTO_4S 4000 ms ;;
    ms <~ nap WDTO_2S 2000 ms ;;
    ms <~ nap WDTO_1S 1000 ms ;;
    ms <~ nap WDTO_500MS 500 ms ;;
    ms <~ nap WDTO_250MS 250 ms ;;
    ms <~ nap WDTO_120MS 120 ms ;;
    ms <~ nap WDTO_60MS 60 ms ;;
    ms <~ nap WDTO_30MS 30 ms ;;
    _ <~ nap WDTO_15MS 15 ms ;;
    final_tick).

(** [mySleep] *)
Definition mySleep (ms : Z) : M Z :=
  write (set_wokeUpWhy 0) ;;
  _pre_doPowerDown ;;
  why <- (if 0 <? ms then myInternalSleep ms
          else
            _doPowerDown WDTO_SLEEP_FOREVER ;;
            flag <- read wokeUpWhy ;;
            ret (int8 flag)) ;;
  write (set_wokeUpWhy 0) ;;
  _post_doPowerDown ;;
  ret (if negb (why =? 0) then why else MY_WAKE_UP_BY_TIMER cfg).

(** *** The MySensors core, as far as [snooze] consumes it *)

(** [isTransportReady()] *)
Definition isTransportReady : M bool :=
  fun w => (transport env (polls w), set_polls (S (polls w)) w, []).

(** [hwMillis()] is Arduino's [millis()], which reads [timer0_millis]. *)
Definition hwMillis : M Z := read timer0_millis.

(** [_process()]: handles pending messages; time passes. *)
Definition _process : M unit :=
  fun w =>
    (tt,
     set_procs (S (procs w))
       (set_timer0_millis (uint32 (timer0_millis w + process_ms env (procs w))) w),
     [EvProcess]).

(** The loop that waits for the transport:
    [while (!isTransportReady() && (sleepDeltaMS < sleepingTimeMS)
            && (sleepDeltaMS < MY_SLEEP_TRANSPORT_RECONNECT_TIMEOUT_MS))
       { _process(); sleepDeltaMS = hwMillis() - sleepEnterMS; }]
    Nothing in the code bounds the number of iterations, so the loop
    takes fuel: one unit per iteration, [None] when it runs out.  The
    result is the value of [sleepDeltaMS] when the loop is left. *)
Fixpoint wait_for_transport (fuel : nat) (sleepingTimeMS sleepEnterMS sleepDeltaMS : Z)
  (w : world) : option (Z * world * list event) :=
  let '(ready, w1, e1) := isTransportReady w in
  if negb ready
     && (sleepDeltaMS <? sleepingTimeMS)
     && (sleepDeltaMS <? MY_SLEEP_TRANSPORT_RECONNECT_TIMEOUT_MS cfg)
  then
    match fuel with
    | O => None
    | S fuel' =>
        let '(now, w2, e2) := (_process ;; hwMillis) w1 in
        option_map (prepend (e1 ++ e2))
          (wait_for_transport fuel' sleepingTimeMS sleepEnterMS
             (uint32 (now - sleepEnterMS)) w2)
    end
  else Some (sleepDeltaMS, w1, e1).

(** [wait(waitingMS)] of the MySensors core, which handles messages
    until the time has passed:
    [enteringMS = hwMillis();
     while (hwMillis() - enteringMS < waitingMS) { _process(); }]
    Like the loop above it takes fuel, one unit per iteration. *)
Fixpoint wait_loop (fuel : nat) (waitingMS enteringMS : Z) (w : world)
  : option (unit * world * list event) :=
  let '(now, w1, e1) := hwMillis w in
  if uint32 (now - enteringMS) <? waitingMS then
    match fuel with
    | O => None
    | S fuel' =>
        let '(_, w2, e2) := _process w1 in
        option_map (prepend (e1 ++ e2))
          (wait_loop fuel' waitingMS enteringMS w2)
    end
  else Some (tt, w1, e1).

Definition wait (fuel : nat) (waitingMS : Z) (w : world)
  : option (unit * world * list event) :=
  let '(_, w0, e0) := emit (EvWait waitingMS) w in
  let '(enteringMS, w1, e1) := hwMillis w0 in
  option_map (prepend (e0 ++ e1)) (wait_loop fuel waitingMS enteringMS w1).

(** [if (smartSleep) { (void)sendHeartbeat();
                       wait(MY_SMART_SLEEP_WAIT_DURATION_MS); }] *)
Definition notify_controller (fuel : nat) (smartSleep : bool) (w : world)
  : option (unit * world * list event) :=
  if smartSleep then
    let '(_, w1, e1) := emit EvHeartbeat w in
    option_map (prepend e1)
      (wait fuel (MY_SMART_SLEEP_WAIT_DURATION_MS cfg) w1)
  else Some (tt, w, []).

(** [transportDisable(); setIndication(INDICATION_SLEEP);
     int8_t result = mySleep(sleepingTimeMS);
     setIndication(INDICATION_WAKEUP); return result;] *)
Definition power_down_transport_and_sleep (sleepingTimeMS : Z) : M Z :=
  emit EvTransportDisable ;;
  emit (EvIndication INDICATION_SLEEP) ;;
  result <- mySleep sleepingTimeMS ;;
  emit (EvIndication INDICATION_WAKEUP) ;;
  ret result.

(** The part of [snooze] after the transport check: the optional smart
    sleep notification, then the sleep itself. *)
Definition snooze_sleep (fuel : nat) (sleepingTimeMS : Z) (smartSleep : bool)
  (w : world) : option (Z * world * list event) :=
  match notify_controller fuel smartSleep w with
  | None => None
  | Some (_, w1, e1) =>
      Some (prepend e1 (power_down_transport_and_sleep sleepingTimeMS w1))
  end.

(** [snooze].  The fuel bounds each of its two waiting loops. *)
Definition snooze (fuel : nat) (sleepingMS : Z) (smartSleep : bool) (w : world)
  : option (Z * world * list event) :=
  let '(ready, w1, e1) := isTransportReady w in
  if negb ready then
    let '(sleepEnterMS, w2, e2) := hwMillis w1 in
    match wait_for_transport fuel sleepingMS sleepEnterMS 0 w2 with
    | None => None
    | Some (sleepDeltaMS, w3, e3) =>
        if sleepDeltaMS <? sleepingMS then
          option_map (prepend (e1 ++ e2 ++ e3))
            (snooze_sleep fuel (sleepingMS - sleepDeltaMS) smartSleep w3)
        else
          Some (MY_SLEEP_NOT_POSSIBLE cfg, w3, e1 ++ e2 ++ e3)
    end
  else option_map (prepend e1) (snooze_sleep fuel sleepingMS smartSleep w1).

End MySnooze.

(** ** Reading a run *)

(** The nominal length of a watchdog period, as the names of the
    selectors give it. *)
Definition nominal_ms (wdto : Z) : Z :=
  if wdto =? WDTO_8S then 8000
  else if wdto =? WDTO_4S then 4000
  else if wdto =? WDTO_2S then 2000
  else if wdto =? WDTO_1S then 1000
  else if wdto =? WDTO_500MS then 500
  else if wdto =? WDTO_250MS then 250
  else if wdto =? WDTO_120MS then 120
  else if wdto =? WDTO_60MS then 60
  else if wdto =? WDTO_30MS then 30
  else if wdto =? WDTO_15MS then 15
  else 0.

(** The hardware sleeps of a run, in order. *)
Fixpoint power_downs (e : list event) : list Z :=
  match e with
  | [] => []
  | EvPowerDown wdto _ _ :: e' => wdto :: power_downs e'
  | _ :: e' => power_downs e'
  end.

(** The quanta slept in a run, in milliseconds, and their sum. *)
Definition quanta (e : list event) : list Z := map nominal_ms (power_downs e).
Definition slept (e : list event) : Z := fold_right Z.add 0 (quanta e).

(** The number of callback invocations in a run. *)
Fixpoint tick_count (e : list event) : Z :=
  match e with
  | [] => 0
  | EvTick _ :: e' => 1 + tick_count e'
  | _ :: e' => tick_count e'
  end.

(** The value of [wokeUpWhy] with which the first hardware sleep of a run
    was entered. *)
Fixpoint first_entry (e : list event) : option Z :=
  match e with
  | [] => None
  | EvPowerDown _ entry _ :: _ => Some entry
  | _ :: e' => first_entry e'
  end.

(** What an event means for the scheduler: the value it makes the
    scheduler return, 0 when the scheduler carries on. *)
Definition verdict (ev : event) : Z :=
  match ev with
  | EvPowerDown _ _ wake => int8 wake
  | EvTick why => why
  | _ => 0
  end.

(** The quanta below 8 s in the order in which [myInternalSleep] tries
    them, each with its watchdog selector. *)
Definition small_table : list (Z * Z) :=
  [ (WDTO_4S, 4000); (WDTO_2S, 2000); (WDTO_1S, 1000); (WDTO_500MS, 500);
    (WDTO_250MS, 250); (WDTO_120MS, 120); (WDTO_60MS, 60); (WDTO_30MS, 30);
    (WDTO_15MS, 15) ].

(** The conditional naps of [myInternalSleep] as an iteration over a
    table, followed by [k]; [myInternalSleep_unfold] below shows that the
    nine naps written out in [myInternalSleep] are this iteration over
    [small_table]. *)
Fixpoint naps_in_turn (env : environment) (table : list (Z * Z))
  (k : M (flow Z)) (ms : Z) : M (flow Z) :=
  match table with
  | [] => k
  | (wdto, q) :: table' =>
      ms' <~ nap env wdto q ms ;; naps_in_turn env table' k ms'
  end.

(** *** A closed description of undisturbed runs

    The definitions from here to [unslept] are not translations of code.
    They describe in closed form what a run does in which nothing asks to
    wake; [myInternalSleep_quiet] below proves that the code does exactly
    that. *)

(** What an undisturbed run leaves of [ms] after the conditional naps,
    and the events it produces on the way. *)
Fixpoint cascade_rest (table : list (Z * Z)) (ms : Z) : Z :=
  match table with
  | [] => ms
  | (_, q) :: table' => cascade_rest table' (if q <=? ms then ms - q else ms)
  end.

Fixpoint cascade_events (table : list (Z * Z)) (ms : Z) : list event :=
  match table with
  | [] => []
  | (wdto, q) :: table' =>
      (if q <=? ms then [EvPowerDown wdto 0 0] else [])
      ++ cascade_events table' (if q <=? ms then ms - q else ms)
  end.

(** A bound on what the conditional naps leave: a remainder below [b]
    is below [max q (b - q)] after the nap of length [q]. *)
Fixpoint cascade_bound (table : list (Z * Z)) (b : Z) : Z :=
  match table with
  | [] => b
  | (_, q) :: table' => cascade_bound table' (Z.max q (b - q))
  end.

(** The events of an undisturbed [myInternalSleep ms]. *)
Definition tick_events (env : environment) : list event :=
  match tick env with Some _ => [EvTick 0] | None => [] end.

Definition flush_events (cfg : config) : list event :=
  if MY_DISABLED_SERIAL cfg then [] else [EvFlush].

Definition undisturbed_events (cfg : config) (env : environment) (ms : Z)
  : list event :=
  flush_events cfg
  ++ concat (repeat (EvPowerDown WDTO_8S 0 0 :: tick_events env)
                    (Z.to_nat (ms / 8000)))
  ++ cascade_events small_table (ms mod 8000)
  ++ tick_events env.

(** What [myInternalSleep] leaves unslept of [ms]. *)
Definition unslept (ms : Z) : Z := cascade_rest small_table (ms mod 8000).

(** The flag after a hardware sleep is what interrupt context stored, or
    what it was before. *)
Definition woken_with (env : environment) (w : world) : Z :=
  match isr env (naps w) with
  | Some v => uint8 v
  | None => wokeUpWhy w
  end.

(** The world after the first two statements of [mySleep]
    ([wokeUpWhy = 0; _pre_doPowerDown();]) and after its last two
    ([wokeUpWhy = 0; _post_doPowerDown();]). *)
Definition before_sleep (w : world) : world :=
  let w1 := set_wokeUpWhy 0 w in
  set_ADCSRA (Z.land (ADCSRA w1) (Z.lnot (Z.shiftl 1 ADEN)))
    (set_ADENsave (Z.land (ADCSRA w1) (Z.shiftl 1 ADEN)) w1).

Definition after_sleep (w : world) : world :=
  let w1 := set_wokeUpWhy 0 w in
  set_ADCSRA (Z.lor (ADCSRA w1) (ADENsave w1)) w1.

(** The millisecond counter after [k] more calls of [_process()], when
    it reads [t] now and [_process()] has been called [p] times. *)
Fixpoint clock_after (env : environment) (k : nat) (t : Z) (p : nat) : Z :=
  match k with
  | O => t
  | S k' => clock_after env k' (uint32 (t + process_ms env p)) (S p)
  end.

(** The world after one call of [_process()]. *)
Definition processed (env : environment) (w : world) : world :=
  set_procs (S (procs w))
    (set_timer0_millis (uint32 (timer0_millis w + process_ms env (procs w))) w).

(** The sum of the table entries that a mask selects, each entry at
    most once. *)
Fixpoint pick (mask : list bool) (table : list (Z * Z)) : Z :=
  match mask, table with
  | b :: mask', (_, q) :: table' => (if b then q else 0) + pick mask' table'
  | _, _ => 0
  end.

(** The sum of all entries of a table, and a table in which every entry
    is larger than all later entries together. *)
Fixpoint total (table : list (Z * Z)) : Z :=
  match table with
  | [] => 0
  | (_, q) :: table' => q + total table'
  end.

Fixpoint superincreasing (table : list (Z * Z)) : Prop :=
  match table with
  | [] => True
  | (_, q) :: table' => 0 <= total table' < q /\ superincreasing table'
  end.

(** [ceil (a / b)] for positive [b]. *)
Definition ceil_div (a b : Z) : Z := (a + b - 1) / b.

(** ** Predicates on runs *)

(** How a statement ended: [Some why] after [return why], [None] when it
    fell through. *)
Definition returns_of {A} (r : flow A) : option Z :=
  match r with Return why => Some why | Next _ => None end.

(** [sat P m]: every run of [m] satisfies [P], a relation between the
    world before, the way the statement ended, the world after and the
    events produced. *)
Definition sat (P : world -> option Z -> world -> list event -> Prop)
  {A} (m : M (flow A)) : Prop :=
  forall w, let '(r, w', e) := m w in P w (returns_of r) w' e.

(** A statement that always executes a [return]. *)
Definition always_returns {A} (m : M (flow A)) : Prop :=
  forall w, exists why w' e, m w = (Return why, w', e).

(** Events on which the scheduler carries on. *)
Definition clean (e : list event) : Prop := Forall (fun ev => verdict ev = 0) e.

(** A run that returned [why]: either nothing asked it to stop and it
    returned 0, or its last event is the one that made it return. *)
Definition stopped (why : Z) (e : list event) : Prop :=
  (why = 0 /\ clean e)
  \/ (exists pre ev, e = pre ++ [ev] /\ clean pre /\ verdict ev = why).

(** A statement that invokes the callback at most [n] times. *)
Definition tick_bound (n : Z) {A} (m : M (flow A)) : Prop :=
  forall w, tick_count (snd (m w)) <= n.

(** An event that asks the scheduler to stop: a hardware sleep after
    which the flag is set, or a callback that returned non-zero. *)
Definition requests_wake (ev : event) : Prop :=
  match ev with
  | EvPowerDown _ _ wake => wake <> 0
  | EvTick why => why <> 0
  | _ => False
  end.

(** The flag values an event records are bytes. *)
Definition wake_ok (ev : event) : Prop :=
  match ev with
  | EvPowerDown _ entry wake => 0 <= entry < 256 /\ 0 <= wake < 256
  | _ => True
  end.

(** Starting with a byte in the flag, a statement leaves a byte in the
    flag and stops at the first event that asks for it. *)
Definition stops_at_request (w : world) (o : option Z) (w' : world)
  (e : list event) : Prop :=
  0 <= wokeUpWhy w < 256 ->
  0 <= wokeUpWhy w' < 256
  /\ Forall wake_ok e
  /\ match o with None => clean e | Some why => stopped why e end.

(** The first hardware sleep of a statement is entered with the flag as
    the statement found it; without a hardware sleep the flag is
    unchanged. *)
Definition enters_with_flag (w : world) (o : option Z) (w' : world)
  (e : list event) : Prop :=
  match first_entry e with
  | None => wokeUpWhy w' = wokeUpWhy w
  | Some entry => entry = wokeUpWhy w
  end.

(** An environment in which no interrupt touches the flag and the
    callback, if there is one, never asks to wake up. *)
Definition quiet (env : environment) : Prop :=
  (forall n, isr env n = None)
  /\ (forall f n, tick env = Some f -> int8 (f n) = 0).

(** [rested t w w']: in [w'] the flag is clear and the millisecond counter
    is [t] ms ahead of the one in [w]. *)
Definition rested (t : Z) (w w' : world) : Prop :=
  wokeUpWhy w' = 0
  /\ uint32 (timer0_millis w') = uint32 (timer0_millis w + t).


(** ** Events and the environment *)

(** [replays env n k flag e s]: the events [e] are what the environment
    [env] makes of a run that starts with [n] hardware sleeps and [k]
    callback invocations behind it and [flag] in [wokeUpWhy]: every
    hardware sleep is entered with the flag as the run left it and wakes
    with what interrupt context stored during that sleep, every tick
    records what the callback returned at that invocation; [s] holds the
    two counts and the flag at the end. *)
Fixpoint replays (env : environment) (n k : nat) (flag : Z) (e : list event)
  (s : nat * nat * Z) : Prop :=
  match e with
  | [] => (n, k, flag) = s
  | EvPowerDown _ entry wake :: e' =>
      entry = flag
      /\ wake = match isr env n with Some v => uint8 v | None => flag end
      /\ replays env (S n) k wake e' s
  | EvTick why :: e' =>
      (exists f, tick env = Some f /\ why = int8 (f k))
      /\ replays env n (S k) flag e' s
  | _ :: e' => replays env n k flag e' s
  end.

(** A statement whose events are what the environment did. *)
Definition follows_environment (env : environment) (w : world) (o : option Z)
  (w' : world) (e : list event) : Prop :=
  replays env (naps w) (ticks w) (wokeUpWhy w) e
    (naps w', ticks w', wokeUpWhy w').

(** ** Accounting for time *)

(** The milliseconds a run credits to the clock: the nominal lengths of
    the hardware sleeps that ended with the flag clear. *)
Fixpoint credited (e : list event) : Z :=
  match e with
  | [] => 0
  | EvPowerDown wdto _ wake :: e' =>
      (if wake =? 0 then nominal_ms wdto else 0) + credited e'
  | _ :: e' => credited e'
  end.

(** [accounted ms w r]: the run [r], started in [w] with [ms] milliseconds
    to sleep, armed the watchdog for every hardware sleep, corrected the
    clock by what it credits, credits no more than it slept, and slept no
    more than [ms]: exactly [ms] less what is still to sleep when it fell
    through. *)
Definition accounted (ms : Z) (w : world) (r : flow Z * world * list event)
  : Prop :=
  let '(f, w', e) := r in
  uint32 (timer0_millis w') = uint32 (timer0_millis w + credited e)
  /\ 0 <= credited e <= slept e
  /\ Forall (fun wdto => 0 < nominal_ms wdto) (power_downs e)
  /\ match f with
     | Next ms' => 0 <= ms' /\ slept e + ms' = ms
     | Return _ => slept e <= ms
     end.

(** The 8 s quantum and the quanta below it. *)
Definition full_table : list (Z * Z) := (WDTO_8S, 8000) :: small_table.

(** The events of the smart sleep notification when its wait called
    [_process()] [n] times, and the events that follow it before the
    sleep. *)
Definition notify_events (cfg : config) (smartSleep : bool) (n : nat)
  : list event :=
  if smartSleep
  then EvHeartbeat :: EvWait (MY_SMART_SLEEP_WAIT_DURATION_MS cfg)
       :: repeat EvProcess n
  else [].

Definition going_to_sleep : list event :=
  [EvTransportDisable; EvIndication INDICATION_SLEEP].

(** What a statement leaves alone: the ADC and watchdog registers and the
    dealings with the transport. *)
Definition keeps_registers (w : world) (o : option Z) (w' : world)
  (e : list event) : Prop :=
  ADCSRA w' = ADCSRA w /\ ADENsave w' = ADENsave w /\ WDTCSR w' = WDTCSR w
  /\ polls w' = polls w /\ procs w' = procs w.

(** The entries of a list that a mask selects, in the order of the
    list. *)
Fixpoint select {A} (mask : list bool) (l : list A) : list A :=
  match mask, l with
  | b :: mask', x :: l' => (if b then [x] else []) ++ select mask' l'
  | _, _ => []
  end.

(** ** Sample environments *)

(** Nothing happens: no interrupt sets the flag, the callback is defined
    and returns 0, the transport never becomes ready, and each call of
    [_process()] takes a second. *)
Definition env_calm : environment :=
  mkEnv (fun _ => None) (Some (fun _ => 0)) (fun _ => false) (fun _ => 1000).

(** As [env_calm], but an interrupt stores 5 into the flag during the
    second hardware sleep. *)
Definition env_interrupt : environment :=
  mkEnv (fun n => if Nat.eqb n 1 then Some 5 else None)
        (Some (fun _ => 0)) (fun _ => false) (fun _ => 1000).

(** As [env_calm], but the callback returns 7 when called for the second
    time. *)
Definition env_tick_wakes : environment :=
  mkEnv (fun _ => None) (Some (fun n => if Nat.eqb n 1 then 7 else 0))
        (fun _ => false) (fun _ => 1000).

(** A freshly started node: flag clear, clock at 0, ADC enabled. *)
Definition w_boot : world := mkWorld 0 0 128 0 0 0 0 0 0.

(** As [env_calm], but the transport is ready. *)
Definition env_ready : environment :=
  mkEnv (fun _ => None) (Some (fun _ => 0)) (fun _ => true) (fun _ => 1000).
(** * Properties *)

(** ** Machine integers *)

Lemma int8_small (z : Z) : 0 <= z < 128 -> int8 z = z.
Proof. intros H. unfold int8. rewrite Z.mod_small; lia. Qed.

Lemma int8_nonzero (z : Z) : 0 < z < 256 -> int8 z <> 0.
Proof.
  intros H. unfold int8.
  destruct (Z_lt_le_dec z 128).
  - rewrite Z.mod_small; lia.
  - replace (z + 128) with (z - 128 + 1 * 256) by lia.
    rewrite Z.mod_add by lia. rewrite Z.mod_small; lia.
Qed.

Lemma int8_zero_iff (z : Z) : 0 <= z < 256 -> (int8 z = 0 <-> z = 0).
Proof.
  intros H. split.
  - intros E. destruct (Z.eq_dec z 0) as [|N]; [assumption|].
    exfalso. apply (int8_nonzero z); [lia | assumption].
  - intros ->. reflexivity.
Qed.

Lemma uint8_int8 (z : Z) : 0 <= z < 256 -> uint8 (int8 z) = z.
Proof.
  intros H. unfold uint8, int8.
  rewrite Zminus_mod_idemp_l.
  replace (z + 128 - 128) with z by lia. apply Z.mod_small; lia.
Qed.

Lemma uint8_range (z : Z) : 0 <= uint8 z < 256.
Proof. unfold uint8. apply Z.mod_pos_bound. lia. Qed.

Lemma uint32_add_l (a b : Z) : uint32 (uint32 a + b) = uint32 (a + b).
Proof. unfold uint32. apply Zplus_mod_idemp_l. Qed.

Lemma rested_refl (w : world) : wokeUpWhy w = 0 -> rested 0 w w.
Proof. intros H. split; [assumption | now rewrite Z.add_0_r]. Qed.

Lemma rested_trans (t1 t2 : Z) (w w1 w2 : world) :
  rested t1 w w1 -> rested t2 w1 w2 -> rested (t1 + t2) w w2.
Proof.
  intros [_ H1] [F2 H2]. split; [assumption|].
  rewrite H2. rewrite <- uint32_add_l, H1, uint32_add_l.
  f_equal. lia.
Qed.

(** ** The unrolled naps are an iteration over [small_table] *)

Lemma myInternalSleep_unfold (cfg : config) (env : environment) (ms : Z) :
  myInternalSleep cfg env ms
  = returned (
      (if MY_DISABLED_SERIAL cfg then ret tt else emit EvFlush) ;;
      ms' <~ while_8s env ms ;;
      naps_in_turn env small_table (final_tick env) ms').
Proof. reflexivity. Qed.

(** ** One hardware sleep *)

Lemma _doPowerDown_run (env : environment) (wdto : Z) (w : world) :
  exists w1,
    _doPowerDown env wdto w
    = (tt, w1, [EvPowerDown wdto (wokeUpWhy w) (woken_with env w)])
    /\ wokeUpWhy w1 = woken_with env w
    /\ timer0_millis w1 = timer0_millis w.
Proof.
  unfold _doPowerDown, woken_with.
  destruct (isr env (naps w)); eexists; repeat split.
Qed.

Lemma myPowerDown_run (env : environment) (wdto q : Z) (w : world) :
  myPowerDown env wdto q w
  = let '(_, w1, e1) := _doPowerDown env wdto w in
    if wokeUpWhy w1 =? 0
    then (0, set_timer0_millis (uint32 (timer0_millis w1 + q)) w1, e1)
    else (int8 (wokeUpWhy w1), w1, e1).
Proof.
  unfold myPowerDown, bind, read, write, ret.
  destruct (_doPowerDown env wdto w) as [[[] w1] e1].
  destruct (wokeUpWhy w1 =? 0); cbn [negb]; rewrite !app_nil_r; reflexivity.
Qed.

(** ** Undisturbed runs *)

Section Undisturbed.

Variable cfg : config.
Variable env : environment.
Hypothesis env_quiet : quiet env.

Lemma myPowerDown_quiet (wdto q : Z) (w : world) :
  wokeUpWhy w = 0 ->
  exists w', myPowerDown env wdto q w = (0, w', [EvPowerDown wdto 0 0])
             /\ rested q w w'.
Proof.
  intros F. destruct env_quiet as [I _].
  unfold myPowerDown, bind, _doPowerDown, read, write, ret.
  rewrite I. cbn. rewrite !F. cbn. rewrite ?F.
  eexists. split; [reflexivity|].
  split; cbn; [assumption | apply Z.mod_mod; lia].
Qed.

Lemma nap_or_return_quiet (wdto q : Z) (w : world) :
  wokeUpWhy w = 0 ->
  exists w', nap_or_return env wdto q w = (Next tt, w', [EvPowerDown wdto 0 0])
             /\ rested q w w'.
Proof.
  intros F. destruct (myPowerDown_quiet wdto q w F) as (w' & E & R).
  exists w'. split; [|assumption].
  unfold nap_or_return, bind. rewrite E. reflexivity.
Qed.

Lemma tick_or_return_quiet (w : world) :
  wokeUpWhy w = 0 ->
  exists w', tick_or_return env w = (Next tt, w', tick_events env)
             /\ rested 0 w w'.
Proof.
  intros F. destruct env_quiet as [_ T].
  unfold tick_or_return, tick_events.
  destruct (tick env) as [f|] eqn:Ef.
  - unfold bind, call_tick. rewrite (T f _ eq_refl). cbn.
    eexists. split; [reflexivity|]. apply rested_refl in F.
    destruct F as [F1 F2]. split; assumption.
  - exists w. split; [reflexivity | now apply rested_refl].
Qed.

Lemma final_tick_quiet (w : world) :
  wokeUpWhy w = 0 ->
  exists w', final_tick env w = (Return 0, w', tick_events env)
             /\ rested 0 w w'.
Proof.
  intros F. destruct env_quiet as [_ T].
  unfold final_tick, tick_events.
  destruct (tick env) as [f|] eqn:Ef.
  - unfold bind, call_tick. rewrite (T f _ eq_refl). cbn.
    eexists. split; [reflexivity|]. apply rested_refl in F.
    destruct F as [F1 F2]. split; assumption.
  - exists w. split; [reflexivity | now apply rested_refl].
Qed.

Lemma nap_quiet (wdto q ms : Z) (w : world) :
  wokeUpWhy w = 0 ->
  exists w',
    nap env wdto q ms w
    = (Next (if q <=? ms then ms - q else ms), w',
       if q <=? ms then [EvPowerDown wdto 0 0] else [])
    /\ rested (if q <=? ms then q else 0) w w'.
Proof.
  intros F. unfold nap. destruct (q <=? ms).
  - destruct (nap_or_return_quiet wdto q w F) as (w' & E & R).
    exists w'. split; [|assumption].
    unfold bindF. rewrite E. reflexivity.
  - exists w. split; [reflexivity | now apply rested_refl].
Qed.

Lemma naps_in_turn_quiet (table : list (Z * Z)) (k : M (flow Z)) :
  forall (ms : Z) (w : world),
    wokeUpWhy w = 0 ->
    exists w1,
      rested (ms - cascade_rest table ms) w w1
      /\ naps_in_turn env table k ms w
         = prepend (cascade_events table ms) (k w1).
Proof.
  induction table as [|[wdto q] table IH]; intros ms w F.
  - exists w. cbn. replace (ms - ms) with 0 by lia.
    split; [now apply rested_refl|]. destruct (k w) as [[r w'] e]. reflexivity.
  - destruct (nap_quiet wdto q ms w F) as (w1 & E & R).
    destruct (IH (if q <=? ms then ms - q else ms) w1 (proj1 R)) as (w2 & R2 & E2).
    exists w2. split.
    + cbn [cascade_rest].
      replace (ms - _) with
        ((if q <=? ms then q else 0)
         + ((if q <=? ms then ms - q else ms)
            - cascade_rest table (if q <=? ms then ms - q else ms)))
        by (destruct (q <=? ms); lia).
      eapply rested_trans; eassumption.
    + cbn [naps_in_turn cascade_events]. unfold bindF. rewrite E, E2.
      destruct (k w2) as [[r w'] e]. cbn. now rewrite app_assoc.
Qed.

Lemma round_8s_quiet (w : world) :
  wokeUpWhy w = 0 ->
  exists w1,
    rested 8000 w w1
    /\ (_ <~ nap_or_return env WDTO_8S 8000 ;; tick_or_return env) w
       = (Next tt, w1, EvPowerDown WDTO_8S 0 0 :: tick_events env).
Proof.
  intros F.
  destruct (nap_or_return_quiet WDTO_8S 8000 w F) as (w1 & E1 & R1).
  destruct (tick_or_return_quiet w1 (proj1 R1)) as (w2 & E2 & R2).
  exists w2. split.
  - replace 8000 with (8000 + 0) by lia. eapply rested_trans; eassumption.
  - unfold bindF. rewrite E1, E2. reflexivity.
Qed.

Lemma while_8s_quiet (ms : Z) (w : world) :
  0 <= ms -> wokeUpWhy w = 0 ->
  exists w1,
    rested (8000 * (ms / 8000)) w w1
    /\ while_8s env ms w
       = (Next (ms mod 8000), w1,
          concat (repeat (EvPowerDown WDTO_8S 0 0 :: tick_events env)
                         (Z.to_nat (ms / 8000)))).
Proof.
  funelim (while_8s env ms w); intros Hms F.
  - (* the loop is not entered *)
    rewrite Z.div_small, Z.mod_small by lia.
    exists w. split; [now apply rested_refl | reflexivity].
  - (* a round cannot return in a quiet environment *)
    destruct (round_8s_quiet w F) as (w2 & _ & E).
    rewrite E in Heq. discriminate.
  - (* one round, then the rest of the loop *)
    destruct (round_8s_quiet w F) as (w2 & R & E).
    rewrite E in Heq. injection Heq as <- <- <-.
    match goal with
    | IH : 0 <= _ -> _ -> exists _, _ |- _ =>
        destruct (IH ltac:(lia) (proj1 R)) as (w3 & R3 & E3)
    end.
    assert (D : ms / 8000 = (ms - 8000) / 8000 + 1).
    { replace ms with ((ms - 8000) + 1 * 8000) at 1 by lia.
      now rewrite Z.div_add by lia. }
    assert (Md : ms mod 8000 = (ms - 8000) mod 8000).
    { replace ms with ((ms - 8000) + 1 * 8000) at 1 by lia.
      now rewrite Z.mod_add by lia. }
    exists w3. split.
    + replace (8000 * (ms / 8000)) with (8000 + 8000 * ((ms - 8000) / 8000)) by lia.
      eapply rested_trans; eassumption.
    + rewrite E3, Md, D. cbn [prepend].
      rewrite Z2Nat.inj_add by (try apply Z.div_pos; lia).
      rewrite Nat.add_comm. reflexivity.
Qed.

Lemma myInternalSleep_quiet (ms : Z) (w : world) :
  0 <= ms -> wokeUpWhy w = 0 ->
  exists w',
    myInternalSleep cfg env ms w = (0, w', undisturbed_events cfg env ms)
    /\ rested (ms - unslept ms) w w'.
Proof.
  intros Hms F. rewrite myInternalSleep_unfold.
  destruct (while_8s_quiet ms w Hms F) as (w1 & R1 & E1).
  destruct (naps_in_turn_quiet small_table (final_tick env) (ms mod 8000) w1 (proj1 R1))
    as (w2 & R2 & E2).
  destruct (final_tick_quiet w2 (proj1 R2)) as (w3 & E3 & R3).
  exists w3. split.
  - unfold returned, bind, bindF, undisturbed_events, flush_events.
    destruct (MY_DISABLED_SERIAL cfg); cbn [ret emit];
      rewrite E1, E2, E3; reflexivity.
  - unfold unslept.
    replace (ms - _) with
      (8000 * (ms / 8000)
       + ((ms mod 8000 - cascade_rest small_table (ms mod 8000)) + 0))
      by (pose proof (Z.div_mod ms 8000); lia).
    eapply rested_trans; [eassumption|].
    eapply rested_trans; eassumption.
Qed.

End Undisturbed.

(** ** Reading undisturbed runs *)

Lemma power_downs_app (a b : list event) :
  power_downs (a ++ b) = power_downs a ++ power_downs b.
Proof.
  induction a as [|ev a IH]; [reflexivity|].
  destruct ev; cbn; rewrite ?IH; reflexivity.
Qed.

Lemma tick_count_app (a b : list event) :
  tick_count (a ++ b) = tick_count a + tick_count b.
Proof.
  induction a as [|ev a IH]; [reflexivity|].
  destruct ev; cbn [tick_count app]; rewrite ?IH; lia.
Qed.

Lemma slept_app (a b : list event) : slept (a ++ b) = slept a + slept b.
Proof.
  unfold slept, quanta. rewrite power_downs_app, map_app.
  induction (map nominal_ms (power_downs a)) as [|x l IH]; cbn; lia.
Qed.

Lemma tick_count_nonneg (e : list event) : 0 <= tick_count e.
Proof. induction e as [|ev e IH]; [reflexivity|]. destruct ev; cbn [tick_count]; lia. Qed.

Lemma slept_tick_events (env : environment) : slept (tick_events env) = 0.
Proof. unfold tick_events. now destruct (tick env). Qed.

Lemma slept_rounds (env : environment) (n : nat) :
  slept (concat (repeat (EvPowerDown WDTO_8S 0 0 :: tick_events env) n))
  = 8000 * Z.of_nat n.
Proof.
  induction n as [|n IH]; [reflexivity|].
  cbn [repeat concat]. rewrite slept_app, IH.
  change (EvPowerDown WDTO_8S 0 0 :: tick_events env)
    with ([EvPowerDown WDTO_8S 0 0] ++ tick_events env).
  rewrite slept_app, slept_tick_events.
  change (slept [EvPowerDown WDTO_8S 0 0]) with 8000. lia.
Qed.

Lemma slept_cascade (table : list (Z * Z)) :
  Forall (fun p => nominal_ms (fst p) = snd p) table ->
  forall ms, slept (cascade_events table ms) = ms - cascade_rest table ms.
Proof.
  induction 1 as [|[wdto q] table Hq _ IH]; intros ms; cbn [cascade_events cascade_rest].
  - cbn. lia.
  - rewrite slept_app, IH. cbn in Hq.
    destruct (q <=? ms); unfold slept, quanta;
      cbn [power_downs map fold_right]; rewrite ?Hq; lia.
Qed.

Lemma small_table_nominal :
  Forall (fun p => nominal_ms (fst p) = snd p) small_table.
Proof. repeat constructor. Qed.

Lemma slept_undisturbed (cfg : config) (env : environment) (ms : Z) :
  0 <= ms -> slept (undisturbed_events cfg env ms) = ms - unslept ms.
Proof.
  intros Hms. unfold undisturbed_events, unslept.
  rewrite !slept_app, slept_rounds, slept_tick_events.
  rewrite (slept_cascade _ small_table_nominal).
  rewrite Z2Nat.id by (apply Z.div_pos; lia).
  replace (slept (flush_events cfg)) with 0
    by (unfold flush_events; now destruct (MY_DISABLED_SERIAL cfg)).
  pose proof (Z.div_mod ms 8000). lia.
Qed.

Lemma cascade_rest_bound (table : list (Z * Z)) :
  forall b r, 0 <= r < b ->
    0 <= cascade_rest table r < cascade_bound table b.
Proof.
  induction table as [|[wdto q] table IH]; intros b r Hr; cbn; [assumption|].
  apply IH. destruct (Z.leb_spec q r); lia.
Qed.

Lemma unslept_bound (ms : Z) : 0 <= unslept ms < 25.
Proof.
  unfold unslept.
  change 25 with (cascade_bound small_table 8000).
  apply cascade_rest_bound. apply Z.mod_pos_bound. lia.
Qed.

(** ** Properties that compose along the statements of [myInternalSleep] *)

Section Sequential.

Variable cfg : config.
Variable env : environment.
Variable P : world -> option Z -> world -> list event -> Prop.

Hypothesis P_skip : forall w, P w None w [].
Hypothesis P_seq :
  forall w w1 w2 e1 e2 o,
    P w None w1 e1 -> P w1 o w2 e2 -> P w o w2 (e1 ++ e2).
Hypothesis P_flush : forall w, P w None w [EvFlush].
Hypothesis P_nap_or_return : forall wdto q, sat P (nap_or_return env wdto q).
Hypothesis P_tick_or_return : sat P (tick_or_return env).
Hypothesis P_final_tick : sat P (final_tick env).

Lemma sat_bindF {A B} (m : M (flow A)) (k : A -> M (flow B)) :
  sat P m -> (forall a, sat P (k a)) -> sat P (bindF m k).
Proof.
  intros Hm Hk w. unfold bindF.
  specialize (Hm w). destruct (m w) as [[[why|a] w1] e1]; [exact Hm|].
  specialize (Hk a w1). destruct (k a w1) as [[r w2] e2].
  eapply P_seq; eassumption.
Qed.

Lemma sat_next {A} (a : A) : sat P (ret (Next a)).
Proof. intros w. apply P_skip. Qed.

Lemma sat_nap (wdto q ms : Z) : sat P (nap env wdto q ms).
Proof.
  unfold nap. destruct (q <=? ms); [|apply sat_next].
  apply sat_bindF; [apply P_nap_or_return | intros _; apply sat_next].
Qed.

Lemma sat_naps_in_turn (table : list (Z * Z)) (k : M (flow Z)) :
  sat P k -> forall ms, sat P (naps_in_turn env table k ms).
Proof.
  intros Hk. induction table as [|[wdto q] table IH]; intros ms; cbn; [exact Hk|].
  apply sat_bindF; [apply sat_nap | exact IH].
Qed.

Lemma sat_round_8s :
  sat P (_ <~ nap_or_return env WDTO_8S 8000 ;; tick_or_return env).
Proof. apply sat_bindF; [apply P_nap_or_return | intros _; apply P_tick_or_return]. Qed.

Lemma sat_while_8s (ms : Z) : sat P (while_8s env ms).
Proof.
  intros w. funelim (while_8s env ms w).
  - apply P_skip.
  - pose proof (sat_round_8s w) as R. rewrite Heq in R. exact R.
  - pose proof (sat_round_8s w) as R. rewrite Heq in R.
    destruct (while_8s env (ms - 8000) w1) as [[r w2] e2].
    cbn [prepend]. eapply P_seq; eassumption.
Qed.

Lemma naps_in_turn_returns (table : list (Z * Z)) (k : M (flow Z)) :
  always_returns k -> forall ms, always_returns (naps_in_turn env table k ms).
Proof.
  intros Hk. induction table as [|[wdto q] table IH]; intros ms w; cbn; [apply Hk|].
  unfold bindF. destruct (nap env wdto q ms w) as [[[why|ms'] w1] e1].
  - now exists why, w1, e1.
  - destruct (IH ms' w1) as (why & w2 & e2 & E). rewrite E.
    now exists why, w2, (e1 ++ e2).
Qed.

Lemma final_tick_returns : always_returns (final_tick env).
Proof.
  intros w. unfold final_tick. destruct (tick env) as [f|].
  - unfold bind, call_tick, ret. now eexists _, _, _.
  - now exists 0, w, [].
Qed.

(** Every run of [myInternalSleep] satisfies [P] with the value it
    returns. *)
Lemma sat_myInternalSleep (ms : Z) (w : world) :
  let '(why, w', e) := myInternalSleep cfg env ms w in P w (Some why) w' e.
Proof.
  rewrite myInternalSleep_unfold.
  assert (B : forall w0,
             let '(why, w', e) :=
               returned (ms' <~ while_8s env ms ;;
                         naps_in_turn env small_table (final_tick env) ms') w0
             in P w0 (Some why) w' e).
  { intros w0. unfold returned, bindF.
    pose proof (sat_while_8s ms w0) as L.
    destruct (while_8s env ms w0) as [[[why|ms'] w1] e1]; [exact L|].
    destruct (naps_in_turn_returns small_table _ final_tick_returns ms' w1)
      as (why & w2 & e2 & E).
    pose proof (sat_naps_in_turn small_table _ P_final_tick ms' w1) as N.
    rewrite E in *. eapply P_seq; eassumption. }
  unfold returned, bind in *.
  destruct (MY_DISABLED_SERIAL cfg); cbn [ret emit].
  - specialize (B w).
    destruct (bindF _ _ w) as [[[why|why] w1] e1]; exact B.
  - specialize (B w).
    destruct (bindF _ _ w) as [[[why|why] w1] e1];
      change ([EvFlush] ++ e1) with ([EvFlush] ++ e1);
      (eapply P_seq; [apply P_flush | exact B]).
Qed.

End Sequential.

(** ** Every run stops at the first request *)

Lemma clean_app (a b : list event) : clean a -> clean b -> clean (a ++ b).
Proof. intros Ha Hb. apply Forall_app. now split. Qed.

Lemma stopped_prepend (why : Z) (a b : list event) :
  clean a -> stopped why b -> stopped why (a ++ b).
Proof.
  intros Ha [[-> Hb] | (pre & ev & -> & Hpre & Hev)].
  - left. split; [reflexivity | now apply clean_app].
  - right. exists (a ++ pre), ev. rewrite app_assoc.
    repeat split; [now apply clean_app | assumption].
Qed.

Section StopsAtRequest.

Variable env : environment.

Lemma stops_skip (w : world) : stops_at_request w None w [].
Proof. intros F. split; [assumption|]. split; constructor. Qed.

Lemma stops_seq (w w1 w2 : world) (e1 e2 : list event) (o : option Z) :
  stops_at_request w None w1 e1 -> stops_at_request w1 o w2 e2 ->
  stops_at_request w o w2 (e1 ++ e2).
Proof.
  intros H1 H2 F. destruct (H1 F) as (F1 & K1 & C1).
  destruct (H2 F1) as (F2 & K2 & C2).
  split; [assumption|]. split; [apply Forall_app; now split|].
  destruct o as [why|]; [now apply stopped_prepend | now apply clean_app].
Qed.

Lemma stops_flush (w : world) : stops_at_request w None w [EvFlush].
Proof.
  intros F. split; [assumption|].
  split; repeat constructor.
Qed.

Lemma stops_nap_or_return (wdto q : Z) :
  sat stops_at_request (nap_or_return env wdto q).
Proof.
  intros w. unfold nap_or_return, bind. rewrite myPowerDown_run.
  destruct (_doPowerDown_run env wdto w) as (w1 & -> & E & _).
  assert (W : 0 <= wokeUpWhy w < 256 -> 0 <= woken_with env w < 256)
    by (unfold woken_with; destruct (isr env (naps w)); [intros _; apply uint8_range | tauto]).
  rewrite E.
  destruct (Z.eqb_spec (woken_with env w) 0) as [Z0|NZ]; cbn;
    unfold stops_at_request; cbn.
  - intros F. rewrite E. split; [lia|]. split; repeat constructor; try lia.
    cbn. rewrite Z0. reflexivity.
  - destruct (Z.eqb_spec (int8 (woken_with env w)) 0) as [I0|NI]; cbn;
      intros F; specialize (W F).
    + exfalso. apply (int8_nonzero (woken_with env w)); [lia | assumption].
    + rewrite E. split; [assumption|]. split; [repeat constructor; lia|].
      right. exists [], (EvPowerDown wdto (wokeUpWhy w) (woken_with env w)).
      repeat split. constructor.
Qed.

Lemma stops_tick_or_return : sat stops_at_request (tick_or_return env).
Proof.
  intros w. unfold tick_or_return.
  destruct (tick env) as [f|]; [|apply stops_skip].
  unfold bind, call_tick, ret.
  destruct (Z.eqb_spec (int8 (f (ticks w))) 0) as [Z0|NZ]; cbn; intros F.
  - split; [assumption|]. split; repeat constructor. assumption.
  - split; [assumption|]. split; [repeat constructor|].
    right. exists [], (EvTick (int8 (f (ticks w)))). repeat split. constructor.
Qed.

Lemma stops_final_tick : sat stops_at_request (final_tick env).
Proof.
  intros w. unfold final_tick.
  destruct (tick env) as [f|].
  - unfold bind, call_tick, ret. cbn. intros F.
    split; [assumption|]. split; [repeat constructor|].
    right. exists [], (EvTick (int8 (f (ticks w)))). repeat split. constructor.
  - cbn. intros F. split; [assumption|]. split; [constructor|].
    left. split; [reflexivity | constructor].
Qed.

Lemma myInternalSleep_stops (cfg : config) (ms : Z) (w : world) :
  let '(why, w', e) := myInternalSleep cfg env ms w in
  stops_at_request w (Some why) w' e.
Proof.
  apply sat_myInternalSleep.
  - exact stops_skip.
  - exact stops_seq.
  - exact stops_flush.
  - exact stops_nap_or_return.
  - exact stops_tick_or_return.
  - exact stops_final_tick.
Qed.

End StopsAtRequest.

Lemma wake_ok_verdict (ev : event) :
  wake_ok ev -> (requests_wake ev <-> verdict ev <> 0).
Proof.
  destruct ev; cbn; try tauto.
  intros [_ W]. pose proof (int8_zero_iff wake W). tauto.
Qed.

(** In a run that stopped, an event that asks to stop is the last one and
    decides the value returned. *)
Lemma stopped_at (why : Z) (pre post : list event) (ev : event) :
  stopped why (pre ++ ev :: post) -> verdict ev <> 0 ->
  post = [] /\ why = verdict ev /\ clean pre.
Proof.
  intros [[_ C] | (pre' & ev' & E & C & V)] NZ.
  - exfalso. apply Forall_app in C as [_ C]. inversion C; subst. contradiction.
  - destruct post as [|x post].
    + apply app_inj_tail in E as [-> ->]. now repeat split.
    + exfalso.
      assert (I : In ev pre').
      { apply (f_equal (@removelast event)) in E.
        rewrite removelast_last, removelast_app in E by discriminate.
        rewrite <- E. cbn [removelast]. apply in_elt. }
      unfold clean in C. rewrite Forall_forall in C. apply NZ, C, I.
Qed.

(** ** [mySleep] around the scheduler *)

Lemma mySleep_run (cfg : config) (env : environment) (ms : Z) (w : world) :
  mySleep cfg env ms w
  = if 0 <? ms then
      let '(why, w1, e) := myInternalSleep cfg env ms (before_sleep w) in
      (if negb (why =? 0) then why else MY_WAKE_UP_BY_TIMER cfg,
       after_sleep w1, e)
    else
      let '(_, w1, e) := _doPowerDown env WDTO_SLEEP_FOREVER (before_sleep w) in
      (if negb (int8 (wokeUpWhy w1) =? 0) then int8 (wokeUpWhy w1)
       else MY_WAKE_UP_BY_TIMER cfg,
       after_sleep w1, e).
Proof.
  unfold mySleep.
  set (f := myInternalSleep cfg env ms).
  set (g := _doPowerDown env WDTO_SLEEP_FOREVER).
  clearbody f g.
  unfold _pre_doPowerDown, _post_doPowerDown, before_sleep, after_sleep.
  unfold bind, write, read, ret.
  destruct (0 <? ms); cbn.
  - destruct (f _) as [[why w1] e]. cbn. rewrite ?app_nil_r. reflexivity.
  - destruct (g _) as [[[] w1] e]. cbn. rewrite ?app_nil_r. reflexivity.
Qed.

Lemma before_sleep_flag (w : world) : wokeUpWhy (before_sleep w) = 0.
Proof. reflexivity. Qed.

Lemma after_sleep_flag (w : world) : wokeUpWhy (after_sleep w) = 0.
Proof. reflexivity. Qed.

(** ** The flag with which the first hardware sleep is entered *)

Lemma first_entry_app (a b : list event) :
  first_entry (a ++ b)
  = match first_entry a with Some f => Some f | None => first_entry b end.
Proof.
  induction a as [|ev a IH]; [reflexivity|].
  destruct ev; cbn; rewrite ?IH; reflexivity.
Qed.

Section EntersWithFlag.

Variable env : environment.

Lemma enters_skip (w : world) : enters_with_flag w None w [].
Proof. reflexivity. Qed.

Lemma enters_seq (w w1 w2 : world) (e1 e2 : list event) (o : option Z) :
  enters_with_flag w None w1 e1 -> enters_with_flag w1 o w2 e2 ->
  enters_with_flag w o w2 (e1 ++ e2).
Proof.
  unfold enters_with_flag. rewrite first_entry_app.
  destruct (first_entry e1) as [f|]; [tauto|].
  intros <-. tauto.
Qed.

Lemma enters_flush (w : world) : enters_with_flag w None w [EvFlush].
Proof. reflexivity. Qed.

Lemma enters_nap_or_return (wdto q : Z) :
  sat enters_with_flag (nap_or_return env wdto q).
Proof.
  intros w. unfold nap_or_return, bind. rewrite myPowerDown_run.
  destruct (_doPowerDown_run env wdto w) as (w1 & -> & _ & _).
  destruct (wokeUpWhy w1 =? 0); cbn.
  - reflexivity.
  - destruct (negb _); reflexivity.
Qed.

Lemma enters_tick_or_return : sat enters_with_flag (tick_or_return env).
Proof.
  intros w. unfold tick_or_return.
  destruct (tick env) as [f|]; [|reflexivity].
  unfold bind, call_tick. destruct (negb _); reflexivity.
Qed.

Lemma enters_final_tick : sat enters_with_flag (final_tick env).
Proof.
  intros w. unfold final_tick.
  destruct (tick env) as [f|]; reflexivity.
Qed.

Lemma myInternalSleep_enters (cfg : config) (ms : Z) (w : world) :
  let '(why, w', e) := myInternalSleep cfg env ms w in
  enters_with_flag w (Some why) w' e.
Proof.
  apply sat_myInternalSleep.
  - exact enters_skip.
  - exact enters_seq.
  - exact enters_flush.
  - exact enters_nap_or_return.
  - exact enters_tick_or_return.
  - exact enters_final_tick.
Qed.

End EntersWithFlag.

(** ** How often the callback is invoked *)

Section TickBound.

Variable env : environment.

Lemma tick_bound_bindF {A B} (n n' : Z) (m : M (flow A)) (k : A -> M (flow B)) :
  0 <= n' -> tick_bound n m -> (forall a, tick_bound n' (k a)) ->
  tick_bound (n + n') (bindF m k).
Proof.
  intros Hn' Hm Hk w. unfold bindF.
  specialize (Hm w). destruct (m w) as [[[why|a] w1] e1]; cbn in *; [lia|].
  specialize (Hk a w1). destruct (k a w1) as [[r w2] e2]; cbn in *.
  rewrite tick_count_app. lia.
Qed.

Lemma tick_bound_nap_or_return (wdto q : Z) :
  tick_bound 0 (nap_or_return env wdto q).
Proof.
  intros w. unfold nap_or_return, bind. rewrite myPowerDown_run.
  destruct (_doPowerDown_run env wdto w) as (w1 & -> & _ & _).
  destruct (wokeUpWhy w1 =? 0); cbn; [lia|].
  destruct (negb _); cbn; lia.
Qed.

Lemma tick_bound_tick_or_return : tick_bound 1 (tick_or_return env).
Proof.
  intros w. unfold tick_or_return.
  destruct (tick env) as [f|]; [|cbn; lia].
  unfold bind, call_tick. destruct (negb _); cbn; lia.
Qed.

Lemma tick_bound_final_tick : tick_bound 1 (final_tick env).
Proof.
  intros w. unfold final_tick.
  destruct (tick env) as [f|]; cbn; lia.
Qed.

Lemma tick_bound_nap (wdto q ms : Z) : tick_bound 0 (nap env wdto q ms).
Proof.
  unfold nap. destruct (q <=? ms); [|intros w; cbn; lia].
  change 0 with (0 + 0).
  apply tick_bound_bindF; [lia | apply tick_bound_nap_or_return |].
  intros _ w. cbn. lia.
Qed.

Lemma tick_bound_naps_in_turn (n : Z) (table : list (Z * Z)) (k : M (flow Z)) :
  0 <= n -> tick_bound n k ->
  forall ms, tick_bound n (naps_in_turn env table k ms).
Proof.
  intros Hn Hk. induction table as [|[wdto q] table IH]; intros ms; cbn; [exact Hk|].
  change n with (0 + n).
  apply tick_bound_bindF; [lia | apply tick_bound_nap | exact IH].
Qed.

Lemma tick_bound_round_8s :
  tick_bound 1 (_ <~ nap_or_return env WDTO_8S 8000 ;; tick_or_return env).
Proof.
  change 1 with (0 + 1).
  apply tick_bound_bindF;
    [lia | apply tick_bound_nap_or_return | intros _; apply tick_bound_tick_or_return].
Qed.

Lemma tick_bound_while_8s (ms : Z) :
  0 <= ms -> tick_bound (ms / 8000) (while_8s env ms).
Proof.
  intros Hms w. revert Hms. funelim (while_8s env ms w); intros Hms.
  - cbn. apply Z.div_pos; lia.
  - pose proof (tick_bound_round_8s w) as R. rewrite Heq in R. cbn in *.
    assert (1 <= ms / 8000) by (apply Z.div_le_lower_bound; lia). lia.
  - pose proof (tick_bound_round_8s w) as R. rewrite Heq in R. cbn in R.
    match goal with
    | IH : 0 <= _ -> _ |- _ => specialize (IH ltac:(lia))
    end.
    destruct (while_8s env (ms - 8000) w1) as [[r w2] e2]. cbn in *.
    rewrite tick_count_app.
    assert (D : ms / 8000 = (ms - 8000) / 8000 + 1).
    { replace ms with ((ms - 8000) + 1 * 8000) at 1 by lia.
      now rewrite Z.div_add by lia. }
    lia.
Qed.

Lemma myInternalSleep_tick_bound (cfg : config) (ms : Z) (w : world) :
  0 <= ms ->
  tick_count (snd (myInternalSleep cfg env ms w)) <= ms / 8000 + 1.
Proof.
  intros Hms. rewrite myInternalSleep_unfold.
  assert (B : tick_bound (ms / 8000 + 1)
                (ms' <~ while_8s env ms ;;
                 naps_in_turn env small_table (final_tick env) ms')).
  { apply tick_bound_bindF; [lia | now apply tick_bound_while_8s |].
    apply tick_bound_naps_in_turn; [lia | apply tick_bound_final_tick]. }
  unfold returned, bind.
  destruct (MY_DISABLED_SERIAL cfg); cbn [ret emit].
  - specialize (B w). destruct (bindF _ _ w) as [[[why|why] w1] e1]; exact B.
  - specialize (B w). destruct (bindF _ _ w) as [[[why|why] w1] e1]; exact B.
Qed.

End TickBound.

Lemma tick_count_rounds (env : environment) (n : nat) :
  tick_count (concat (repeat (EvPowerDown WDTO_8S 0 0 :: tick_events env) n))
  = Z.of_nat n * tick_count (tick_events env).
Proof.
  induction n as [|n IH]; [reflexivity|].
  cbn [repeat concat]. rewrite tick_count_app, IH.
  cbn [tick_count]. lia.
Qed.

Lemma tick_count_cascade (table : list (Z * Z)) :
  forall ms, tick_count (cascade_events table ms) = 0.
Proof.
  induction table as [|[wdto q] table IH]; intros ms; cbn [cascade_events]; [reflexivity|].
  rewrite tick_count_app, IH. now destruct (q <=? ms).
Qed.

Lemma tick_count_undisturbed (cfg : config) (env : environment) (ms : Z) :
  0 <= ms ->
  tick_count (undisturbed_events cfg env ms)
  = (ms / 8000 + 1) * tick_count (tick_events env).
Proof.
  intros Hms. unfold undisturbed_events.
  rewrite !tick_count_app, tick_count_rounds, tick_count_cascade.
  rewrite Z2Nat.id by (apply Z.div_pos; lia).
  replace (tick_count (flush_events cfg)) with 0
    by (unfold flush_events; now destruct (MY_DISABLED_SERIAL cfg)).
  lia.
Qed.

(** ** Waiting for the transport *)

Section Waiting.

Variable cfg : config.
Variable env : environment.

Lemma wait_for_transport_step (fuel : nat) (ms enter delta : Z) (w : world) :
  wait_for_transport cfg env fuel ms enter delta w
  = let w1 := set_polls (S (polls w)) w in
    if negb (transport env (polls w))
       && (delta <? ms)
       && (delta <? MY_SLEEP_TRANSPORT_RECONNECT_TIMEOUT_MS cfg)
    then
      match fuel with
      | O => None
      | S fuel' =>
          option_map (prepend [EvProcess])
            (wait_for_transport cfg env fuel' ms enter
               (uint32 (timer0_millis (processed env w1) - enter))
               (processed env w1))
      end
    else Some (delta, w1, []).
Proof. destruct fuel; reflexivity. Qed.

(** The wait only calls [_process()]: it neither sleeps nor ticks. *)
Lemma wait_for_transport_events (fuel : nat) (ms enter : Z) :
  forall delta w d w' e,
    wait_for_transport cfg env fuel ms enter delta w = Some (d, w', e) ->
    e = repeat EvProcess (length e).
Proof.
  induction fuel as [|fuel IH]; intros delta w d w' e;
    rewrite wait_for_transport_step; cbv zeta;
    destruct (_ && _ && _); try discriminate.
  - intros [= _ _ <-]. reflexivity.
  - destruct (wait_for_transport cfg env fuel ms enter _ _) as [[[d1 w1] e1]|] eqn:E;
      [|discriminate].
    cbn. intros [= _ _ <-]. cbn. f_equal. eapply IH. eassumption.
  - intros [= _ _ <-]. reflexivity.
Qed.

(** When the transport never answers ready and the request is within the
    reconnect timeout, the wait can only end with the whole request
    used up. *)
Lemma wait_for_transport_used_up (fuel : nat) (ms enter : Z) :
  (forall n, transport env n = false) ->
  ms <= MY_SLEEP_TRANSPORT_RECONNECT_TIMEOUT_MS cfg ->
  forall delta w d w' e,
    wait_for_transport cfg env fuel ms enter delta w = Some (d, w', e) ->
    ms <= d.
Proof.
  intros T Hms. induction fuel as [|fuel IH]; intros delta w d w' e;
    rewrite wait_for_transport_step; cbv zeta; rewrite T; cbn [negb andb];
    destruct (Z.ltb_spec delta ms);
    destruct (Z.ltb_spec delta (MY_SLEEP_TRANSPORT_RECONNECT_TIMEOUT_MS cfg));
    cbn [andb]; try discriminate; try (intros [= <- _ _]; lia).
  destruct (wait_for_transport cfg env fuel ms enter _ _) as [[[d1 w1] e1]|] eqn:E;
    [|discriminate].
  cbn. intros [= <- _ _]. eapply IH. eassumption.
Qed.

(** When the transport never answers ready, the request is within the
    reconnect timeout and the clock moves on, the wait ends. *)
Lemma wait_for_transport_ends (ms enter : Z) :
  (forall n, transport env n = false) ->
  ms <= MY_SLEEP_TRANSPORT_RECONNECT_TIMEOUT_MS cfg ->
  forall k delta w,
    match k with
    | O => ms <= delta
    | S _ => ms <= uint32 (clock_after env k (timer0_millis w) (procs w) - enter)
    end ->
    exists fuel d w' e,
      wait_for_transport cfg env fuel ms enter delta w = Some (d, w', e).
Proof.
  intros T Hms. induction k as [|k IH]; intros delta w Hk.
  - exists O. rewrite wait_for_transport_step. cbv zeta. rewrite T. cbn [negb andb].
    destruct (Z.ltb_spec delta ms); [lia|]. cbn. now eexists _, _, _.
  - destruct (Z.ltb_spec delta ms) as [Lt|Ge].
    + set (w2 := processed env (set_polls (S (polls w)) w)).
      destruct (IH (uint32 (timer0_millis w2 - enter)) w2) as (fuel & d & w' & e & E).
      { destruct k as [|k']; exact Hk. }
      exists (S fuel). rewrite wait_for_transport_step. cbv zeta. rewrite T.
      cbn [negb andb].
      destruct (Z.ltb_spec delta ms); [|lia].
      destruct (Z.ltb_spec delta (MY_SLEEP_TRANSPORT_RECONNECT_TIMEOUT_MS cfg)); [|lia].
      cbn [andb]. fold w2. rewrite E. cbn. now eexists _, _, _.
    + exists O. rewrite wait_for_transport_step. cbv zeta. rewrite T. cbn [negb andb].
      destruct (Z.ltb_spec delta ms); [lia|]. cbn. now eexists _, _, _.
Qed.

(** [snooze] when the transport is not ready on entry. *)
Lemma snooze_not_ready (fuel : nat) (ms : Z) (smartSleep : bool) (w : world) :
  transport env (polls w) = false ->
  snooze cfg env fuel ms smartSleep w
  = match wait_for_transport cfg env fuel ms (timer0_millis w) 0
            (set_polls (S (polls w)) w) with
    | None => None
    | Some (d, w3, e3) =>
        if d <? ms
        then option_map (prepend e3)
               (snooze_sleep cfg env fuel (ms - d) smartSleep w3)
        else Some (MY_SLEEP_NOT_POSSIBLE cfg, w3, e3)
    end.
Proof.
  intros T. unfold snooze, isTransportReady, hwMillis, read. rewrite T.
  cbn [negb app]. reflexivity.
Qed.

End Waiting.

Lemma power_downs_process (n : nat) : power_downs (repeat EvProcess n) = [].
Proof. induction n; [reflexivity | exact IHn]. Qed.

Lemma tick_count_process (n : nat) : tick_count (repeat EvProcess n) = 0.
Proof. induction n; [reflexivity | exact IHn]. Qed.

(** ** Requests that are slept exactly *)

Lemma pick_bounds (table : list (Z * Z)) :
  superincreasing table ->
  forall mask, 0 <= pick mask table <= total table.
Proof.
  induction table as [|[wdto q] table IH]; intros S mask.
  - destruct mask; cbn; lia.
  - destruct S as [Hq S]. destruct mask as [|b mask]; cbn [pick total]; [lia|].
    specialize (IH S mask). destruct b; lia.
Qed.

Lemma cascade_rest_zero (table : list (Z * Z)) :
  superincreasing table -> cascade_rest table 0 = 0.
Proof.
  induction table as [|[wdto q] table IH]; intros S; [reflexivity|].
  destruct S as [Hq S]. cbn [cascade_rest].
  destruct (Z.leb_spec q 0); [lia | now apply IH].
Qed.

Lemma cascade_rest_pick (table : list (Z * Z)) :
  superincreasing table ->
  forall mask, cascade_rest table (pick mask table) = 0.
Proof.
  induction table as [|[wdto q] table IH]; intros S mask.
  - destruct mask; reflexivity.
  - pose proof S as [Hq S'].
    destruct mask as [|b mask]; [now apply cascade_rest_zero|].
    cbn [pick cascade_rest].
    pose proof (pick_bounds table S' mask) as B.
    destruct b.
    + destruct (Z.leb_spec q (q + pick mask table)); [|lia].
      replace (q + pick mask table - q) with (pick mask table) by lia.
      now apply IH.
    + destruct (Z.leb_spec q (0 + pick mask table)); [lia|].
      rewrite Z.add_0_l. now apply IH.
Qed.

Lemma small_table_superincreasing : superincreasing small_table.
Proof. cbn. repeat split; lia. Qed.

Lemma unslept_pick (k : Z) (mask : list bool) :
  unslept (8000 * k + pick mask small_table) = 0.
Proof.
  unfold unslept.
  pose proof (pick_bounds small_table small_table_superincreasing mask) as B.
  cbn [total small_table] in B.
  rewrite Z.add_comm, Z.mul_comm, Z.mod_add by lia.
  rewrite Z.mod_small by lia.
  apply cascade_rest_pick, small_table_superincreasing.
Qed.

Lemma env_calm_quiet : quiet env_calm.
Proof. split; [reflexivity | intros f n [= <-]; reflexivity]. Qed.

(** ** The events of a run are what the environment did *)

Lemma replays_app (env : environment) (e1 e2 : list event) :
  forall n k flag n1 k1 flag1 s,
    replays env n k flag e1 (n1, k1, flag1) ->
    replays env n1 k1 flag1 e2 s ->
    replays env n k flag (e1 ++ e2) s.
Proof.
  induction e1 as [|ev e1 IH]; intros n k flag n1 k1 flag1 s H1 H2.
  - cbn in H1. injection H1 as -> -> ->. exact H2.
  - destruct ev; cbn in *;
      try (eapply IH; eassumption).
    + destruct H1 as (A & B & H1). repeat split; try assumption.
      eapply IH; eassumption.
    + destruct H1 as (A & H1). split; [assumption|].
      eapply IH; eassumption.
Qed.

(** The event at a given place of a run that follows the environment:
    a hardware sleep woke with what interrupt context stored during that
    sleep (or with the flag it was entered with), a tick holds what the
    callback returned at that invocation. *)
Lemma replays_at (env : environment) (pre post : list event) (ev : event) :
  forall n k flag s,
    replays env n k flag (pre ++ ev :: post) s ->
    match ev with
    | EvPowerDown _ entry wake =>
        wake = match isr env (n + length (power_downs pre)) with
               | Some v => uint8 v
               | None => entry
               end
    | EvTick why =>
        exists f, tick env = Some f
                  /\ why = int8 (f (k + Z.to_nat (tick_count pre))%nat)
    | _ => True
    end.
Proof.
  induction pre as [|x pre IH]; intros n k flag s H.
  - cbn [app] in H. destruct ev; cbn in *; try exact I.
    + destruct H as (-> & -> & _). now rewrite Nat.add_0_r.
    + destruct H as ((f & Ef & ->) & _). exists f. now rewrite Nat.add_0_r.
  - destruct x; cbn [app replays power_downs tick_count length] in *;
      try (eapply IH; eassumption).
    + destruct H as (_ & _ & H). specialize (IH _ _ _ _ H).
      destruct ev; try exact I; try exact IH.
      now rewrite Nat.add_succ_r.
    + destruct H as (_ & H). specialize (IH _ _ _ _ H).
      pose proof (tick_count_nonneg pre) as P.
      destruct ev; try exact I; try exact IH.
      destruct IH as (f & Ef & ->). exists f. split; [assumption|].
      rewrite Z2Nat.inj_add by lia. cbn. now rewrite Nat.add_succ_r.
Qed.

Section FollowsEnvironment.

Variable env : environment.

Lemma follows_skip (w : world) : follows_environment env w None w [].
Proof. reflexivity. Qed.

Lemma follows_seq (w w1 w2 : world) (e1 e2 : list event) (o : option Z) :
  follows_environment env w None w1 e1 ->
  follows_environment env w1 o w2 e2 ->
  follows_environment env w o w2 (e1 ++ e2).
Proof. unfold follows_environment. apply replays_app. Qed.

Lemma follows_nap_or_return (wdto q : Z) :
  sat (follows_environment env) (nap_or_return env wdto q).
Proof.
  intros w. unfold nap_or_return, bind. rewrite myPowerDown_run.
  unfold _doPowerDown, follows_environment.
  destruct (isr env (naps w)) as [v|] eqn:I; cbn;
    match goal with
    | |- context [if ?c then _ else _] => destruct c
    end; cbn;
    try match goal with
    | |- context [negb ?c] => destruct c
    end; cbn; rewrite I; now repeat split.
Qed.

Lemma follows_tick_or_return :
  sat (follows_environment env) (tick_or_return env).
Proof.
  intros w. unfold tick_or_return, follows_environment.
  destruct (tick env) as [f|] eqn:T; [|reflexivity].
  unfold bind, call_tick. destruct (negb _); cbn; rewrite T;
    (split; [now exists f | reflexivity]).
Qed.

Lemma follows_final_tick : sat (follows_environment env) (final_tick env).
Proof.
  intros w. unfold final_tick, follows_environment.
  destruct (tick env) as [f|] eqn:T; [|reflexivity].
  cbn. rewrite T. split; [now exists f | reflexivity].
Qed.

Lemma myInternalSleep_follows (cfg : config) (ms : Z) (w : world) :
  let '(why, w', e) := myInternalSleep cfg env ms w in
  follows_environment env w (Some why) w' e.
Proof.
  apply sat_myInternalSleep.
  - exact follows_skip.
  - exact follows_seq.
  - intros w0. reflexivity.
  - exact follows_nap_or_return.
  - exact follows_tick_or_return.
  - exact follows_final_tick.
Qed.

End FollowsEnvironment.

(** * The claims *)

(** ** C1: how much of a request is slept *)

(** C1, as amended.  In an undisturbed run of [myInternalSleep ms]
    ([ms > 0], flag clear on entry, no interrupt sets the flag, no callback
    asks to wake) the quanta slept add up to [ms - unslept ms], which is at
    most [ms] and falls short of it by less than 25 ms; the millisecond
    counter is advanced by the same amount; and the sum is exactly [ms]
    whenever [ms] is a multiple of 8000 plus a sum of smaller table
    entries each taken at most once. *)
Theorem myInternalSleep_sleeps_greedy_sum
  (cfg : config) (env : environment) (ms : Z) (w : world) :
  quiet env -> wokeUpWhy w = 0 -> 0 < ms ->
  let '(why, w', e) := myInternalSleep cfg env ms w in
  why = 0
  /\ slept e = ms - unslept ms
  /\ 0 <= unslept ms < 25
  /\ uint32 (timer0_millis w') = uint32 (timer0_millis w + slept e)
  /\ (forall k mask, ms = 8000 * k + pick mask small_table -> slept e = ms).
Proof.
  intros Q F Hms.
  destruct (myInternalSleep_quiet cfg env Q ms w ltac:(lia) F) as (w' & -> & R).
  rewrite slept_undisturbed by lia.
  split; [reflexivity|]. split; [reflexivity|].
  split; [apply unslept_bound|]. split; [apply R|].
  intros k mask ->. rewrite unslept_pick. lia.
Qed.

Lemma myInternalSleep_sleeps_greedy_sum_witness :
  let '(why, w', e) := myInternalSleep mysensors env_calm 9015 w_boot in
  why = 0
  /\ slept e = 9015 - unslept 9015
  /\ 0 <= unslept 9015 < 25
  /\ uint32 (timer0_millis w') = uint32 (timer0_millis w_boot + slept e)
  /\ slept e = 9015.
Proof.
  pose proof (myInternalSleep_sleeps_greedy_sum mysensors env_calm 9015 w_boot
                env_calm_quiet eq_refl ltac:(lia)) as H.
  destruct (myInternalSleep mysensors env_calm 9015 w_boot) as [[why w'] e].
  destruct H as (H1 & H2 & H3 & H4 & H5).
  exact (conj H1 (conj H2 (conj H3 (conj H4
           (H5 1 [false; false; true; false; false; false; false; false; true]
               eq_refl))))).
Defined.

(** C1 fails as stated: an undisturbed request of 240 ms sleeps
    120 + 60 + 30 + 15 = 225 ms, although 240 is a multiple of 15 and the
    sum 120 + 120 of table entries. *)
Lemma myInternalSleep_240_sleeps_225 :
  quiet env_calm
  /\ quanta (snd (myInternalSleep mysensors env_calm 240 w_boot)) = [120; 60; 30; 15]
  /\ slept (snd (myInternalSleep mysensors env_calm 240 w_boot)) = 225
  /\ 15 * (240 / 15) = 240
  /\ 240 = 120 + 120.
Proof.
  split; [exact env_calm_quiet|]. repeat split; vm_compute; reflexivity.
Qed.

(** ** C7: the decomposition of 9015 ms *)

(** C7.  An undisturbed request of 9015 ms sleeps one 8 s quantum, then one
    1 s quantum, then one 15 ms quantum, and nothing else. *)
Theorem myInternalSleep_9015_is_8000_1000_15
  (cfg : config) (env : environment) (w : world) :
  quiet env -> wokeUpWhy w = 0 ->
  power_downs (snd (myInternalSleep cfg env 9015 w))
  = [WDTO_8S; WDTO_1S; WDTO_15MS]
  /\ quanta (snd (myInternalSleep cfg env 9015 w)) = [8000; 1000; 15].
Proof.
  intros Q F.
  destruct (myInternalSleep_quiet cfg env Q 9015 w ltac:(lia) F) as (w' & -> & _).
  unfold undisturbed_events, flush_events, tick_events.
  destruct (MY_DISABLED_SERIAL cfg), (tick env); split; reflexivity.
Qed.

Lemma myInternalSleep_9015_is_8000_1000_15_witness :
  power_downs (snd (myInternalSleep mysensors env_calm 9015 w_boot))
  = [WDTO_8S; WDTO_1S; WDTO_15MS]
  /\ quanta (snd (myInternalSleep mysensors env_calm 9015 w_boot)) = [8000; 1000; 15].
Proof.
  apply (myInternalSleep_9015_is_8000_1000_15 mysensors env_calm w_boot).
  - exact env_calm_quiet.
  - reflexivity.
Defined.

(** ** C3: how often the callback runs *)

(** C3, as amended.  For a request [ms > 0] the callback is invoked at
    most [ms / 8000 + 1] times in every run.  An undisturbed run produces
    exactly the events [undisturbed_events]: the callback, if defined, runs
    once after every 8 s quantum and once more after the conditional naps
    for the quanta below 8 s (whether or not any of them was slept), that is
    [ms / 8000 + 1] times; the quanta below 8 s are not followed by a
    callback of their own. *)
Theorem myInternalSleep_callback_count
  (cfg : config) (env : environment) (ms : Z) (w : world) :
  0 < ms ->
  tick_count (snd (myInternalSleep cfg env ms w)) <= ms / 8000 + 1
  /\ (quiet env -> wokeUpWhy w = 0 ->
      snd (myInternalSleep cfg env ms w) = undisturbed_events cfg env ms
      /\ tick_count (snd (myInternalSleep cfg env ms w))
         = match tick env with Some _ => ms / 8000 + 1 | None => 0 end).
Proof.
  intros Hms. split.
  - apply myInternalSleep_tick_bound. lia.
  - intros Q F.
    destruct (myInternalSleep_quiet cfg env Q ms w ltac:(lia) F) as (w' & -> & _).
    split; [reflexivity|]. cbn [snd].
    rewrite tick_count_undisturbed by lia.
    unfold tick_events. destruct (tick env); cbn [tick_count]; lia.
Qed.

Lemma myInternalSleep_callback_count_witness :
  tick_count (snd (myInternalSleep mysensors env_calm 20000 w_boot)) <= 20000 / 8000 + 1
  /\ snd (myInternalSleep mysensors env_calm 20000 w_boot)
     = undisturbed_events mysensors env_calm 20000
  /\ tick_count (snd (myInternalSleep mysensors env_calm 20000 w_boot))
     = 20000 / 8000 + 1.
Proof.
  destruct (myInternalSleep_callback_count mysensors env_calm 20000 w_boot
              ltac:(lia)) as [B U].
  split; [exact B | exact (U env_calm_quiet eq_refl)].
Defined.

(** C3 fails as stated: an undisturbed request of 8000 ms sleeps one
    quantum and invokes the callback twice, once in the loop and once
    before returning, while [ceil (8000 / 8000) = 1]. *)
Lemma myInternalSleep_8000_ticks_twice :
  quiet env_calm
  /\ snd (myInternalSleep mysensors env_calm 8000 w_boot)
     = [EvFlush; EvPowerDown WDTO_8S 0 0; EvTick 0; EvTick 0]
  /\ tick_count (snd (myInternalSleep mysensors env_calm 8000 w_boot)) = 2
  /\ quanta (snd (myInternalSleep mysensors env_calm 8000 w_boot)) = [8000]
  /\ ceil_div 8000 8000 = 1.
Proof.
  split; [exact env_calm_quiet|]. repeat split; vm_compute; reflexivity.
Qed.

(** ** C4: the first request to wake ends the run *)

(** C4.  Take any event of any run of [myInternalSleep].  What it records
    is what the environment did: a hardware sleep woke with the value
    that interrupt context stored into the flag during that sleep (or with
    the flag as it was on entry, when nothing was stored), and a tick
    holds the value the callback returned at that invocation.  If the
    event asks to wake (the flag is non-zero after the sleep, or the
    callback returned non-zero) it is the last event of the run: nothing
    is slept and nothing is called after it; the value returned is
    non-zero and is the flag value (as [int8_t], the same byte) or the
    callback's value; and no earlier event asked to wake. *)
Theorem myInternalSleep_stops_at_first_request
  (cfg : config) (env : environment) (ms : Z) (w : world)
  (why : Z) (w' : world) (pre post : list event) (ev : event) :
  0 <= wokeUpWhy w < 256 ->
  myInternalSleep cfg env ms w = (why, w', pre ++ ev :: post) ->
  (forall wdto entry wake,
      ev = EvPowerDown wdto entry wake ->
      wake = match isr env (naps w + length (power_downs pre)) with
             | Some v => uint8 v
             | None => entry
             end)
  /\ (forall v,
        ev = EvTick v ->
        exists f, tick env = Some f
                  /\ v = int8 (f (ticks w + Z.to_nat (tick_count pre))%nat))
  /\ (requests_wake ev ->
      post = []
      /\ why = verdict ev
      /\ why <> 0
      /\ Forall (fun x => ~ requests_wake x) pre
      /\ (forall wdto entry wake,
            ev = EvPowerDown wdto entry wake ->
            why = int8 wake /\ uint8 why = wake)).
Proof.
  intros F E.
  pose proof (myInternalSleep_follows env cfg ms w) as G. rewrite E in G.
  pose proof (replays_at env pre post ev _ _ _ _ G) as A.
  split; [intros wdto entry wake ->; exact A|].
  split; [intros v ->; exact A|].
  intros R.
  pose proof (myInternalSleep_stops env cfg ms w) as S. rewrite E in S.
  destruct (S F) as (_ & K & St).
  apply Forall_app in K as [Kpre Kev]. inversion Kev as [|? ? Kv _]; subst.
  pose proof (proj1 (wake_ok_verdict ev Kv) R) as NZ.
  destruct (stopped_at why pre post ev St NZ) as (-> & -> & C).
  split; [reflexivity|]. split; [reflexivity|]. split; [assumption|]. split.
  - unfold clean in C. rewrite Forall_forall in *. intros x Ix Rx.
    apply (wake_ok_verdict x (Kpre x Ix)) in Rx. apply Rx, C, Ix.
  - intros wdto entry wake ->. cbn in *. split; [reflexivity|].
    apply uint8_int8. tauto.
Qed.

Lemma myInternalSleep_stops_at_first_request_witness :
  (* an interrupt stores 5 during the second hardware sleep *)
  (5 = match isr env_interrupt 1 with Some v => uint8 v | None => 0 end
   /\ ([] : list event) = []
   /\ 5 = verdict (EvPowerDown WDTO_8S 0 5)
   /\ 5 <> 0
   /\ Forall (fun x => ~ requests_wake x)
        [EvFlush; EvPowerDown WDTO_8S 0 0; EvTick 0]
   /\ (5 = int8 5 /\ uint8 5 = 5))
  (* the callback returns 7 at its second invocation *)
  /\ ((exists f, tick env_tick_wakes = Some f /\ 7 = int8 (f 1%nat))
      /\ ([] : list event) = []
      /\ 7 = verdict (EvTick 7)
      /\ 7 <> 0
      /\ Forall (fun x => ~ requests_wake x)
           [EvFlush; EvPowerDown WDTO_8S 0 0; EvTick 0; EvPowerDown WDTO_8S 0 0]).
Proof.
  split.
  - destruct (myInternalSleep_stops_at_first_request mysensors env_interrupt 20000 w_boot
                5 (set_naps 2 (set_ticks 1 (set_wokeUpWhy 5 (set_timer0_millis 8000 w_boot))))
                [EvFlush; EvPowerDown WDTO_8S 0 0; EvTick 0] [] (EvPowerDown WDTO_8S 0 5))
      as (G1 & _ & H).
    + cbn. lia.
    + vm_compute. reflexivity.
    + destruct H as (H1 & H2 & H3 & H4 & H5); [cbn; lia|].
      exact (conj (G1 WDTO_8S 0 5 eq_refl)
               (conj H1 (conj H2 (conj H3 (conj H4 (H5 WDTO_8S 0 5 eq_refl)))))).
  - destruct (myInternalSleep_stops_at_first_request mysensors env_tick_wakes 20000 w_boot
                7 (set_naps 2 (set_ticks 2 (set_timer0_millis 16000 w_boot)))
                [EvFlush; EvPowerDown WDTO_8S 0 0; EvTick 0; EvPowerDown WDTO_8S 0 0]
                [] (EvTick 7))
      as (_ & G2 & H).
    + cbn. lia.
    + vm_compute. reflexivity.
    + destruct H as (H1 & H2 & H3 & H4 & _); [cbn; lia|].
      exact (conj (G2 7 eq_refl) (conj H1 (conj H2 (conj H3 H4)))).
Defined.

(** ** C5: the flag is clear before the first sleep and after the last *)

(** C5.  Whatever [ms] and whatever happens, [mySleep] enters its first
    hardware sleep with the flag at 0 and leaves the flag at 0, so that
    the first hardware sleep of any later [mySleep] is again entered with
    the flag at 0. *)
Theorem mySleep_clears_flag
  (cfg : config) (env : environment) (ms : Z) (w : world) :
  let '(why, w', e) := mySleep cfg env ms w in
  wokeUpWhy w' = 0
  /\ (first_entry e = None \/ first_entry e = Some 0)
  /\ (forall ms2,
        first_entry (snd (mySleep cfg env ms2 w')) = None
        \/ first_entry (snd (mySleep cfg env ms2 w')) = Some 0).
Proof.
  assert (G : forall ms0 w0,
             first_entry (snd (mySleep cfg env ms0 w0)) = None
             \/ first_entry (snd (mySleep cfg env ms0 w0)) = Some 0).
  { intros ms0 w0. rewrite mySleep_run. destruct (0 <? ms0).
    - pose proof (myInternalSleep_enters env cfg ms0 (before_sleep w0)) as E.
      destruct (myInternalSleep cfg env ms0 (before_sleep w0)) as [[why w1] e].
      unfold enters_with_flag in E. cbn [snd].
      destruct (first_entry e) as [f|]; [right | now left].
      now rewrite E.
    - destruct (_doPowerDown_run env WDTO_SLEEP_FOREVER (before_sleep w0))
        as (w1 & -> & _ & _).
      right. reflexivity. }
  pose proof (G ms w) as G0. rewrite mySleep_run in *.
  destruct (0 <? ms).
  - destruct (myInternalSleep cfg env ms (before_sleep w)) as [[why w1] e].
    split; [reflexivity|]. split; [exact G0 | intros ms2; apply G].
  - destruct (_doPowerDown env WDTO_SLEEP_FOREVER (before_sleep w)) as [[[] w1] e].
    split; [reflexivity|]. split; [exact G0 | intros ms2; apply G].
Qed.

(** ** C6: the clock correction of one quantum *)

(** C6.  [myPowerDown wdto q] with [0 < q < 2^32] advances [timer0_millis]
    by [q] (modulo 2^32) if and only if the flag is 0 when the hardware
    sleep ends; when the flag is non-zero the counter is unchanged; and
    the correction changes nothing but the counter: the world after the
    call is the world after the hardware sleep with, at most, a new
    counter value. *)
Theorem myPowerDown_corrects_clock
  (env : environment) (wdto q : Z) (w : world) :
  0 < q < 4294967296 ->
  0 <= timer0_millis w < 4294967296 ->
  let w1 := snd (fst (_doPowerDown env wdto w)) in
  let '(why, w', e) := myPowerDown env wdto q w in
  (timer0_millis w' = uint32 (timer0_millis w1 + q) <-> wokeUpWhy w1 = 0)
  /\ (wokeUpWhy w1 = 0 \/ timer0_millis w' = timer0_millis w1)
  /\ w' = set_timer0_millis (timer0_millis w') w1
  /\ e = snd (_doPowerDown env wdto w).
Proof.
  intros Hq Ht. rewrite myPowerDown_run.
  destruct (_doPowerDown_run env wdto w) as (w1 & E & _ & T).
  rewrite E. cbn [fst snd]. cbv zeta.
  destruct (Z.eqb_spec (wokeUpWhy w1) 0) as [Z0|NZ].
  - cbn. split; [tauto|]. split; [now left|].
    split; [now destruct w1 | reflexivity].
  - cbn. split; [|split; [now right | split; [now destruct w1 | reflexivity]]].
    split; [|contradiction].
    intros A. exfalso. rewrite T in A. unfold uint32 in A.
    destruct (Z_lt_le_dec (timer0_millis w + q) 4294967296).
    + rewrite Z.mod_small in A; lia.
    + replace (timer0_millis w + q)
        with (timer0_millis w + q - 4294967296 + 1 * 4294967296) in A by lia.
      rewrite Z.mod_add in A by lia. rewrite Z.mod_small in A; lia.
Qed.

Lemma myPowerDown_corrects_clock_witness :
  (let w1 := snd (fst (_doPowerDown env_calm WDTO_1S w_boot)) in
   let '(why, w', e) := myPowerDown env_calm WDTO_1S 1000 w_boot in
   (timer0_millis w' = uint32 (timer0_millis w1 + 1000) <-> wokeUpWhy w1 = 0)
   /\ (wokeUpWhy w1 = 0 \/ timer0_millis w' = timer0_millis w1)
   /\ w' = set_timer0_millis (timer0_millis w') w1
   /\ e = snd (_doPowerDown env_calm WDTO_1S w_boot))
  /\ (let w1 := snd (fst (_doPowerDown env_interrupt WDTO_1S (set_naps 1 w_boot))) in
      let '(why, w', e) := myPowerDown env_interrupt WDTO_1S 1000 (set_naps 1 w_boot) in
      (timer0_millis w' = uint32 (timer0_millis w1 + 1000) <-> wokeUpWhy w1 = 0)
      /\ (wokeUpWhy w1 = 0 \/ timer0_millis w' = timer0_millis w1)
      /\ w' = set_timer0_millis (timer0_millis w') w1
      /\ e = snd (_doPowerDown env_interrupt WDTO_1S (set_naps 1 w_boot))).
Proof.
  split.
  - apply (myPowerDown_corrects_clock env_calm WDTO_1S 1000 w_boot).
    + lia.
    + cbn. lia.
  - apply (myPowerDown_corrects_clock env_interrupt WDTO_1S 1000 (set_naps 1 w_boot)).
    + lia.
    + cbn. lia.
Defined.

(** ** C9: the quantum sleeper reports the flag and leaves it alone *)

(** C9.  [myPowerDown] returns the value the flag holds when the hardware
    sleep ends (as [int8_t]: the same byte, and 0 exactly when the flag is
    0), and the flag after the call is what interrupt context stored
    during the sleep, or what it was before the call when nothing was
    stored. *)
Theorem myPowerDown_returns_flag
  (env : environment) (wdto q : Z) (w : world) :
  0 <= wokeUpWhy w < 256 ->
  let '(why, w', e) := myPowerDown env wdto q w in
  wokeUpWhy w' = woken_with env w
  /\ why = int8 (wokeUpWhy w')
  /\ uint8 why = wokeUpWhy w'
  /\ (why = 0 <-> wokeUpWhy w' = 0).
Proof.
  intros F. rewrite myPowerDown_run.
  destruct (_doPowerDown_run env wdto w) as (w1 & -> & E & _).
  assert (W : 0 <= woken_with env w < 256)
    by (unfold woken_with; destruct (isr env (naps w)); [apply uint8_range | assumption]).
  destruct (Z.eqb_spec (wokeUpWhy w1) 0) as [Z0|NZ]; cbn.
  - rewrite Z0. repeat split; congruence.
  - rewrite E. split; [reflexivity|]. split; [reflexivity|].
    split; [now apply uint8_int8 | now apply int8_zero_iff].
Qed.

Lemma myPowerDown_returns_flag_witness :
  (let '(why, w', e) := myPowerDown env_interrupt WDTO_8S 8000 (set_naps 1 w_boot) in
   wokeUpWhy w' = woken_with env_interrupt (set_naps 1 w_boot)
   /\ why = int8 (wokeUpWhy w')
   /\ uint8 why = wokeUpWhy w'
   /\ (why = 0 <-> wokeUpWhy w' = 0))
  /\ (let '(why, w', e) := myPowerDown env_calm WDTO_8S 8000 w_boot in
      wokeUpWhy w' = woken_with env_calm w_boot
      /\ why = int8 (wokeUpWhy w')
      /\ uint8 why = wokeUpWhy w'
      /\ (why = 0 <-> wokeUpWhy w' = 0)).
Proof.
  split.
  - apply (myPowerDown_returns_flag env_interrupt WDTO_8S 8000 (set_naps 1 w_boot)).
    cbn. lia.
  - apply (myPowerDown_returns_flag env_calm WDTO_8S 8000 w_boot).
    cbn. lia.
Defined.

(** ** C8: sleeping until an interrupt *)

(** C8, as amended.  [mySleep 0] performs exactly one hardware sleep, with
    the watchdog disabled, and never invokes the callback.  It returns the
    flag value found on waking (as [int8_t], the same byte) when that
    value is non-zero, and [MY_WAKE_UP_BY_TIMER] when it is zero. *)
Theorem mySleep_forever
  (cfg : config) (env : environment) (w : world) :
  let wake := match isr env (naps w) with Some v => uint8 v | None => 0 end in
  let '(why, w', e) := mySleep cfg env 0 w in
  e = [EvPowerDown WDTO_SLEEP_FOREVER 0 wake]
  /\ tick_count e = 0
  /\ ticks w' = ticks w
  /\ why = (if wake =? 0 then MY_WAKE_UP_BY_TIMER cfg else int8 wake)
  /\ (wake = 0 \/ uint8 why = wake).
Proof.
  cbv zeta. rewrite mySleep_run. cbn [Z.ltb Z.compare].
  unfold _doPowerDown. change (naps (before_sleep w)) with (naps w).
  destruct (isr env (naps w)) as [v|]; cbn.
  - pose proof (uint8_range v) as R.
    split; [reflexivity|]. split; [reflexivity|]. split; [reflexivity|].
    destruct (Z.eqb_spec (uint8 v) 0) as [Z0|NZ].
    + rewrite Z0. cbn. split; [reflexivity | now left].
    + destruct (Z.eqb_spec (int8 (uint8 v)) 0) as [I0|NI]; cbn.
      * exfalso. apply (int8_nonzero (uint8 v)); [lia | assumption].
      * split; [reflexivity | right; now apply uint8_int8].
  - repeat split. now left.
Qed.

(** C8 fails as stated: when the processor is woken without the flag
    having been set, the flag found on waking is 0 but [mySleep 0] returns
    [MY_WAKE_UP_BY_TIMER], which is -1 in MySensors. *)
Lemma mySleep_forever_returns_timer_for_clear_flag :
  snd (mySleep mysensors env_calm 0 w_boot) = [EvPowerDown WDTO_SLEEP_FOREVER 0 0]
  /\ fst (fst (mySleep mysensors env_calm 0 w_boot)) = -1
  /\ -1 <> 0.
Proof. repeat split; vm_compute; congruence. Qed.

(** ** C10: an indefinite sleep is refused while the transport is down *)

(** C10.  [snooze 0] with the transport not ready returns
    [MY_SLEEP_NOT_POSSIBLE] at once, whatever the fuel: the wait loop is
    not entered ([_process()] is never called), no hardware sleep takes
    place, and nothing changes except that the transport was polled
    twice. *)
Theorem snooze_forever_not_ready
  (cfg : config) (env : environment) (fuel : nat) (smartSleep : bool) (w : world) :
  transport env (polls w) = false ->
  snooze cfg env fuel 0 smartSleep w
  = Some (MY_SLEEP_NOT_POSSIBLE cfg, set_polls (S (S (polls w))) w, []).
Proof.
  intros T. rewrite (snooze_not_ready cfg env fuel 0 smartSleep w T).
  rewrite wait_for_transport_step. cbv zeta.
  rewrite Z.ltb_irrefl, andb_false_r. cbn [andb]. reflexivity.
Qed.

Lemma snooze_forever_not_ready_witness :
  snooze mysensors env_calm 0 0 true w_boot
  = Some (MY_SLEEP_NOT_POSSIBLE mysensors, set_polls 2 w_boot, []).
Proof.
  apply (snooze_forever_not_ready mysensors env_calm 0 true w_boot).
  reflexivity.
Defined.

(** ** C2: giving up when the transport stays down *)

(** What [snooze] does after a wait that left part of the request: it
    sleeps for the rest. *)
Lemma snooze_sleeps_remainder
  (cfg : config) (env : environment) (fuel : nat) (ms : Z) (smartSleep : bool)
  (w : world) (d : Z) (w3 : world) (e3 : list event) :
  transport env (polls w) = false ->
  wait_for_transport cfg env fuel ms (timer0_millis w) 0
    (set_polls (S (polls w)) w) = Some (d, w3, e3) ->
  d < ms ->
  snooze cfg env fuel ms smartSleep w
  = option_map (prepend e3) (snooze_sleep cfg env fuel (ms - d) smartSleep w3).
Proof.
  intros T E H. rewrite (snooze_not_ready cfg env fuel ms smartSleep w T), E.
  destruct (Z.ltb_spec d ms); [reflexivity | lia].
Qed.

(** C2, as amended.  Let [snooze ms] find the transport not ready.  If
    the wait for the transport ends with at least [ms] milliseconds gone,
    so that nothing is left of the request, [snooze] returns
    [MY_SLEEP_NOT_POSSIBLE], and up to then it has neither entered a
    hardware sleep nor invoked the callback.  That is what happens when
    the transport never becomes ready, [ms] is at most the reconnect
    timeout and the clock moves on: with enough fuel for the wait loop
    [snooze] returns [MY_SLEEP_NOT_POSSIBLE] without a hardware sleep. *)
Theorem snooze_transport_not_ready
  (cfg : config) (env : environment) (ms : Z) (smartSleep : bool) (w : world) :
  transport env (polls w) = false ->
  (forall fuel d w3 e3,
      wait_for_transport cfg env fuel ms (timer0_millis w) 0
        (set_polls (S (polls w)) w) = Some (d, w3, e3) ->
      ms <= d ->
      snooze cfg env fuel ms smartSleep w
      = Some (MY_SLEEP_NOT_POSSIBLE cfg, w3, e3)
      /\ power_downs e3 = [] /\ tick_count e3 = 0)
  /\ ((forall n, transport env n = false) ->
      ms <= MY_SLEEP_TRANSPORT_RECONNECT_TIMEOUT_MS cfg ->
      (exists k,
          ms <= uint32 (clock_after env k (timer0_millis w) (procs w)
                        - timer0_millis w)) ->
      exists fuel w' e,
        snooze cfg env fuel ms smartSleep w
        = Some (MY_SLEEP_NOT_POSSIBLE cfg, w', e)
        /\ power_downs e = [] /\ tick_count e = 0).
Proof.
  intros T.
  assert (A : forall fuel d w3 e3,
             wait_for_transport cfg env fuel ms (timer0_millis w) 0
               (set_polls (S (polls w)) w) = Some (d, w3, e3) ->
             ms <= d ->
             snooze cfg env fuel ms smartSleep w
             = Some (MY_SLEEP_NOT_POSSIBLE cfg, w3, e3)
             /\ power_downs e3 = [] /\ tick_count e3 = 0).
  { intros fuel d w3 e3 E H.
    pose proof (wait_for_transport_events cfg env fuel ms _ _ _ _ _ _ E) as Ev.
    split; [|split; rewrite Ev; [apply power_downs_process | apply tick_count_process]].
    rewrite (snooze_not_ready cfg env fuel ms smartSleep w T), E.
    destruct (Z.ltb_spec d ms); [lia | reflexivity]. }
  split; [exact A|].
  intros Tall Hms [k Hk].
  destruct (wait_for_transport_ends cfg env ms (timer0_millis w) Tall Hms k 0
              (set_polls (S (polls w)) w)) as (fuel & d & w' & e & E).
  { destruct k as [|k']; [|exact Hk].
    cbn in Hk. rewrite Z.sub_diag in Hk. exact Hk. }
  pose proof (wait_for_transport_used_up cfg env fuel ms _ Tall Hms _ _ _ _ _ E) as D.
  exists fuel, w', e. now apply (A fuel d).
Qed.

Lemma snooze_transport_not_ready_witness :
  (snooze mysensors env_calm 5 5000 true w_boot
   = Some (MY_SLEEP_NOT_POSSIBLE mysensors,
           set_polls 7 (set_procs 5 (set_timer0_millis 5000 w_boot)),
           repeat EvProcess 5)
   /\ power_downs (repeat EvProcess 5) = []
   /\ tick_count (repeat EvProcess 5) = 0)
  /\ (exists fuel w' e,
        snooze mysensors env_calm fuel 5000 true w_boot
        = Some (MY_SLEEP_NOT_POSSIBLE mysensors, w', e)
        /\ power_downs e = [] /\ tick_count e = 0).
Proof.
  destruct (snooze_transport_not_ready mysensors env_calm 5000 true w_boot eq_refl)
    as [H1 H2].
  split.
  - apply (H1 5%nat 5000).
    + vm_compute. reflexivity.
    + lia.
  - apply H2.
    + reflexivity.
    + cbn. lia.
    + exists 5%nat. vm_compute. discriminate.
Defined.

(** C2 fails as stated: with a request of 20 s, the transport never ready
    and the default reconnect timeout of 10 s, [snooze] waits for ten
    seconds and then sleeps the remaining ten (8 s + 2 s) and returns
    [MY_WAKE_UP_BY_TIMER], not [MY_SLEEP_NOT_POSSIBLE]. *)
Lemma snooze_sleeps_after_reconnect_timeout :
  (forall n, transport env_calm n = false)
  /\ option_map snd (snooze mysensors env_calm 10 20000 false w_boot)
     = Some (repeat EvProcess 10
             ++ [EvTransportDisable; EvIndication INDICATION_SLEEP; EvFlush;
                 EvPowerDown WDTO_8S 0 0; EvTick 0;
                 EvPowerDown WDTO_2S 0 0; EvTick 0;
                 EvIndication INDICATION_WAKEUP])
  /\ option_map (fun r => fst (fst r)) (snooze mysensors env_calm 10 20000 false w_boot)
     = Some (MY_WAKE_UP_BY_TIMER mysensors)
  /\ MY_WAKE_UP_BY_TIMER mysensors <> MY_SLEEP_NOT_POSSIBLE mysensors.
Proof.
  split; [reflexivity|]. repeat split; vm_compute; congruence.
Qed.

(** * Further properties *)

(** ** No run sleeps longer than asked, and the clock is credited with the
       undisturbed quanta *)

Lemma credited_app (a b : list event) : credited (a ++ b) = credited a + credited b.
Proof.
  induction a as [|ev a IH]; [reflexivity|].
  destruct ev; cbn [credited app]; rewrite ?IH; lia.
Qed.

Lemma accounted_seq (a a' b : Z) (w w1 w2 : world) (e1 e2 : list event)
  (f : flow Z) :
  accounted a w (Next a', w1, e1) -> accounted b w1 (f, w2, e2) ->
  accounted (a - a' + b) w (f, w2, e1 ++ e2).
Proof.
  intros (T1 & C1 & A1 & N1 & S1) (T2 & C2 & A2 & F2).
  unfold accounted. rewrite credited_app, slept_app, power_downs_app.
  split.
  - rewrite T2. rewrite <- uint32_add_l, T1, uint32_add_l. f_equal. lia.
  - split; [lia|]. split; [apply Forall_app; now split|].
    destruct f as [why|b']; lia.
Qed.

Section Accounting.

Variable cfg : config.
Variable env : environment.

Lemma accounted_skip (ms : Z) (w : world) :
  0 <= ms -> accounted ms w (Next ms, w, []).
Proof.
  intros H. unfold accounted. cbn. rewrite Z.add_0_r.
  repeat split; try lia. constructor.
Qed.

(** One conditional nap. *)
Lemma accounted_nap (wdto q ms : Z) (w : world) :
  nominal_ms wdto = q -> 0 < q -> 0 <= ms ->
  accounted ms w (nap env wdto q ms w).
Proof.
  intros Hn Hq Hms. unfold nap.
  destruct (Z.leb_spec q ms); [|now apply accounted_skip].
  unfold bindF, nap_or_return, bind. rewrite myPowerDown_run.
  destruct (_doPowerDown_run env wdto w) as (w1 & -> & E & T).
  assert (S1 : slept [EvPowerDown wdto (wokeUpWhy w) (woken_with env w)] = q)
    by (unfold slept, quanta; cbn; lia).
  rewrite E.
  destruct (Z.eqb_spec (woken_with env w) 0) as [Z0|NZ]; cbn -[nominal_ms slept].
  - rewrite S1. cbn -[nominal_ms]. rewrite Z0. cbn -[nominal_ms].
    rewrite Hn, T, Z.add_0_r.
    split; [apply Z.mod_mod; discriminate|]. split; [lia|].
    split; [repeat constructor; lia | lia].
  - destruct (int8 (woken_with env w) =? 0); cbn -[nominal_ms slept];
      rewrite S1; cbn -[nominal_ms];
      destruct (Z.eqb_spec (woken_with env w) 0); try contradiction;
      rewrite T, !Z.add_0_r;
      (split; [reflexivity|]; split; [lia|];
       split; [repeat constructor; lia | lia]).
Qed.

Lemma accounted_naps_in_turn (table : list (Z * Z)) (k : M (flow Z)) :
  Forall (fun p => nominal_ms (fst p) = snd p /\ 0 < snd p) table ->
  (forall ms w, 0 <= ms -> accounted ms w (k w)) ->
  forall ms w, 0 <= ms -> accounted ms w (naps_in_turn env table k ms w).
Proof.
  intros Ht Hk. induction Ht as [|[wdto q] table [Hn Hq] _ IH]; intros ms w Hms;
    cbn [naps_in_turn]; [now apply Hk|].
  cbn in Hn, Hq. unfold bindF.
  pose proof (accounted_nap wdto q ms w Hn Hq Hms) as A.
  destruct (nap env wdto q ms w) as [[[why|ms'] w1] e1]; [exact A|].
  assert (Hms' : 0 <= ms') by (destruct A as (_ & _ & _ & ? & _); assumption).
  pose proof (IH ms' w1 Hms') as B.
  destruct (naps_in_turn env table k ms' w1) as [[f w2] e2].
  replace ms with (ms - ms' + ms') by lia.
  eapply accounted_seq; eassumption.
Qed.

Lemma accounted_final_tick (ms : Z) (w : world) :
  0 <= ms -> accounted ms w (final_tick env w).
Proof.
  intros Hms. unfold final_tick. destruct (tick env) as [f|]; cbn;
    rewrite Z.add_0_r; repeat split; try lia; constructor.
Qed.

(** One round of the loop: an 8 s nap and the callback. *)
Lemma accounted_round_8s (w : world) :
  let '(f, w1, e1) :=
    (_ <~ nap_or_return env WDTO_8S 8000 ;; tick_or_return env) w in
  accounted 8000 w
    (match f with Return why => Return why | Next _ => Next 0 end, w1, e1).
Proof.
  pose proof (accounted_nap WDTO_8S 8000 8000 w eq_refl ltac:(lia) ltac:(lia)) as A.
  unfold nap in A. change (8000 <=? 8000) with true in A.
  unfold bindF in *. cbv beta iota in A.
  destruct (nap_or_return env WDTO_8S 8000 w) as [[[why|[]] w1] e1]; [exact A|].
  unfold ret in A. rewrite app_nil_r in A.
  assert (B : let '(f, w2, e2) := tick_or_return env w1 in
              accounted 0 w1
                (match f with Return why => Return why | Next _ => Next 0 end, w2, e2)).
  { unfold tick_or_return. destruct (tick env) as [f|].
    - unfold bind, call_tick, ret. destruct (negb _); cbn;
        rewrite Z.add_0_r; repeat split; try lia; constructor.
    - cbn. rewrite Z.add_0_r; repeat split; try lia; constructor. }
  destruct (tick_or_return env w1) as [[f w2] e2].
  replace 8000 with (8000 - 0 + 0) by lia.
  eapply accounted_seq; [|exact B].
  replace (8000 - 8000) with 0 in A by lia. exact A.
Qed.

Lemma accounted_while_8s (ms : Z) (w : world) :
  0 <= ms -> accounted ms w (while_8s env ms w).
Proof.
  funelim (while_8s env ms w); intros Hms.
  - now apply accounted_skip.
  - pose proof (accounted_round_8s w) as R. rewrite Heq in R.
    destruct R as (T & C & A & S). repeat split; try assumption; lia.
  - pose proof (accounted_round_8s w) as R. rewrite Heq in R.
    match goal with
    | IH : 0 <= _ -> accounted _ _ _ |- _ => specialize (IH ltac:(lia))
    end.
    destruct (while_8s env (ms - 8000) w1) as [[f w2] e2]. cbn [prepend].
    replace ms with (8000 - 0 + (ms - 8000)) by lia.
    eapply accounted_seq; eassumption.
Qed.

Lemma accounted_myInternalSleep (ms : Z) (w : world) :
  0 <= ms ->
  let '(why, w', e) := myInternalSleep cfg env ms w in
  accounted ms w (Return why, w', e).
Proof.
  intros Hms. rewrite myInternalSleep_unfold.
  assert (B : forall w0,
             accounted ms w0
               ((ms' <~ while_8s env ms ;;
                 naps_in_turn env small_table (final_tick env) ms') w0)).
  { intros w0. unfold bindF.
    pose proof (accounted_while_8s ms w0 Hms) as L.
    destruct (while_8s env ms w0) as [[[why|ms'] w1] e1]; [exact L|].
    assert (Hms' : 0 <= ms') by (destruct L as (_ & _ & _ & ? & _); assumption).
    pose proof (accounted_naps_in_turn small_table (final_tick env)
                  ltac:(repeat constructor) accounted_final_tick ms' w1 Hms') as N.
    destruct (naps_in_turn env small_table (final_tick env) ms' w1) as [[f w2] e2].
    replace ms with (ms - ms' + ms') by lia.
    eapply accounted_seq; eassumption. }
  unfold returned, bind.
  assert (R : forall w0, exists why w' e,
             (ms' <~ while_8s env ms ;;
              naps_in_turn env small_table (final_tick env) ms') w0
             = (Return why, w', e)).
  { intros w0. unfold bindF.
    destruct (while_8s env ms w0) as [[[why|ms'] w1] e1]; [now eexists _, _, _|].
    destruct (naps_in_turn_returns env small_table _ (final_tick_returns env) ms' w1)
      as (why & w2 & e2 & ->).
    now eexists _, _, _. }
  destruct (MY_DISABLED_SERIAL cfg); cbn [ret emit].
  - specialize (B w). destruct (R w) as (why & w' & e & E). rewrite E in *.
    exact B.
  - specialize (B w). destruct (R w) as (why & w' & e & E). rewrite E in *.
    exact B.
Qed.

End Accounting.

(** ** What the scheduler leaves alone *)

Section KeepsRegisters.

Variable env : environment.

Lemma keeps_skip (w : world) : keeps_registers w None w [].
Proof. now repeat split. Qed.

Lemma keeps_seq (w w1 w2 : world) (e1 e2 : list event) (o : option Z) :
  keeps_registers w None w1 e1 -> keeps_registers w1 o w2 e2 ->
  keeps_registers w o w2 (e1 ++ e2).
Proof.
  unfold keeps_registers. intros (A1 & B1 & C1 & D1 & E1) (A2 & B2 & C2 & D2 & E2).
  repeat split; congruence.
Qed.

Lemma keeps_nap_or_return (wdto q : Z) :
  sat keeps_registers (nap_or_return env wdto q).
Proof.
  intros w. unfold nap_or_return, bind. rewrite myPowerDown_run.
  unfold _doPowerDown.
  destruct (isr env (naps w)); cbn;
    match goal with
    | |- context [if ?c then _ else _] => destruct c
    end; cbn;
    try match goal with
    | |- context [negb ?c] => destruct c
    end; now repeat split.
Qed.

Lemma keeps_tick_or_return : sat keeps_registers (tick_or_return env).
Proof.
  intros w. unfold tick_or_return.
  destruct (tick env) as [f|]; [|now repeat split].
  unfold bind, call_tick. destruct (negb _); now repeat split.
Qed.

Lemma keeps_final_tick : sat keeps_registers (final_tick env).
Proof.
  intros w. unfold final_tick.
  destruct (tick env) as [f|]; now repeat split.
Qed.

Lemma myInternalSleep_keeps (cfg : config) (ms : Z) (w : world) :
  let '(why, w', e) := myInternalSleep cfg env ms w in
  keeps_registers w (Some why) w' e.
Proof.
  apply sat_myInternalSleep.
  - exact keeps_skip.
  - exact keeps_seq.
  - intros w0. now repeat split.
  - exact keeps_nap_or_return.
  - exact keeps_tick_or_return.
  - exact keeps_final_tick.
Qed.

End KeepsRegisters.

(** Clearing a bit and setting it again if it was set gives the old
    value. *)
Lemma clear_then_restore_bit (a n : Z) :
  0 <= n ->
  Z.lor (Z.land a (Z.lnot (Z.shiftl 1 n))) (Z.land a (Z.shiftl 1 n)) = a.
Proof.
  intros Hn. apply Z.bits_inj'. intros i Hi.
  rewrite Z.lor_spec, !Z.land_spec, Z.lnot_spec by assumption.
  destruct (Z.testbit a i), (Z.testbit (Z.shiftl 1 n) i); reflexivity.
Qed.

Lemma while_8s_skip (env : environment) (ms : Z) (w : world) :
  ms < 8000 -> while_8s env ms w = (Next ms, w, []).
Proof.
  intros H. funelim (while_8s env ms w); try reflexivity; lia.
Qed.

Lemma power_down_transport_and_sleep_run (cfg : config) (env : environment)
  (ms : Z) (w : world) :
  power_down_transport_and_sleep cfg env ms w
  = let '(why, w', e) := mySleep cfg env ms w in
    (why, w', going_to_sleep ++ e ++ [EvIndication INDICATION_WAKEUP]).
Proof.
  unfold power_down_transport_and_sleep, going_to_sleep.
  set (f := mySleep cfg env ms). clearbody f.
  unfold bind, emit, ret. cbn.
  destruct (f w) as [[why w'] e]. cbn. rewrite ?app_nil_r. reflexivity.
Qed.

(** ** The wait of a smart sleep *)

Section SmartSleepWait.

Variable cfg : config.
Variable env : environment.

Lemma wait_loop_step (fuel : nat) (waitingMS enteringMS : Z) (w : world) :
  wait_loop env fuel waitingMS enteringMS w
  = if uint32 (timer0_millis w - enteringMS) <? waitingMS then
      match fuel with
      | O => None
      | S fuel' =>
          option_map (prepend [EvProcess])
            (wait_loop env fuel' waitingMS enteringMS (processed env w))
      end
    else Some (tt, w, []).
Proof. destruct fuel; reflexivity. Qed.

Lemma iter_processed_shift (n : nat) (w : world) :
  Nat.iter (S n) (processed env) w = Nat.iter n (processed env) (processed env w).
Proof. induction n as [|n IH]; [reflexivity|]. cbn in *. now rewrite IH. Qed.

(** [_process()] only moves the clock and counts its calls. *)
Lemma iter_processed_keeps (n : nat) (w : world) :
  wokeUpWhy (Nat.iter n (processed env) w) = wokeUpWhy w
  /\ polls (Nat.iter n (processed env) w) = polls w
  /\ naps (Nat.iter n (processed env) w) = naps w
  /\ ticks (Nat.iter n (processed env) w) = ticks w
  /\ ADCSRA (Nat.iter n (processed env) w) = ADCSRA w
  /\ WDTCSR (Nat.iter n (processed env) w) = WDTCSR w
  /\ procs (Nat.iter n (processed env) w) = (procs w + n)%nat
  /\ timer0_millis (Nat.iter n (processed env) w)
     = clock_after env n (timer0_millis w) (procs w).
Proof.
  revert w. induction n as [|n IH]; intros w.
  - cbn. repeat split. lia.
  - rewrite iter_processed_shift.
    destruct (IH (processed env w)) as (A & B & C & D & E & F & G & H).
    rewrite A, B, C, D, E, F, G, H. cbn. repeat split. lia.
Qed.

(** The wait ends only when the time has passed; until then it calls
    [_process()] and nothing else. *)
Lemma wait_loop_result (fuel : nat) (waitingMS enteringMS : Z) :
  forall w u w' e,
    wait_loop env fuel waitingMS enteringMS w = Some (u, w', e) ->
    exists n,
      w' = Nat.iter n (processed env) w
      /\ e = repeat EvProcess n
      /\ waitingMS <= uint32 (timer0_millis w' - enteringMS).
Proof.
  induction fuel as [|fuel IH]; intros w u w' e; rewrite wait_loop_step;
    destruct (Z.ltb_spec (uint32 (timer0_millis w - enteringMS)) waitingMS);
    try discriminate;
    try (intros [= _ <- <-]; exists O; now repeat split).
  destruct (wait_loop env fuel waitingMS enteringMS (processed env w))
    as [[[u1 w1] e1]|] eqn:E; [|discriminate].
  cbn. intros [= _ <- <-].
  destruct (IH _ _ _ _ E) as (n & -> & -> & B).
  exists (S n). rewrite iter_processed_shift. now repeat split.
Qed.

(** When the clock moves on, the wait ends. *)
Lemma wait_loop_ends (waitingMS enteringMS : Z) :
  forall k w,
    waitingMS
    <= uint32 (clock_after env k (timer0_millis w) (procs w) - enteringMS) ->
    exists fuel w' e,
      wait_loop env fuel waitingMS enteringMS w = Some (tt, w', e).
Proof.
  induction k as [|k IH]; intros w Hk.
  - exists O. rewrite wait_loop_step. cbn in Hk.
    destruct (Z.ltb_spec (uint32 (timer0_millis w - enteringMS)) waitingMS); [lia|].
    now eexists _, _.
  - destruct (Z.ltb_spec (uint32 (timer0_millis w - enteringMS)) waitingMS) as [Lt|Ge].
    + destruct (IH (processed env w) Hk) as (fuel & w' & e & E).
      exists (S fuel). rewrite wait_loop_step.
      destruct (Z.ltb_spec (uint32 (timer0_millis w - enteringMS)) waitingMS); [|lia].
      rewrite E. cbn. now eexists _, _.
    + exists O. rewrite wait_loop_step.
      destruct (Z.ltb_spec (uint32 (timer0_millis w - enteringMS)) waitingMS); [lia|].
      now eexists _, _.
Qed.

Lemma notify_controller_result (fuel : nat) (smartSleep : bool)
  (w : world) (u : unit) (w' : world) (e : list event) :
  notify_controller cfg env fuel smartSleep w = Some (u, w', e) ->
  exists n,
    w' = Nat.iter n (processed env) w
    /\ e = notify_events cfg smartSleep n
    /\ (smartSleep = false -> n = O)
    /\ (smartSleep = true ->
        MY_SMART_SLEEP_WAIT_DURATION_MS cfg
        <= uint32 (timer0_millis w' - timer0_millis w)).
Proof.
  unfold notify_controller, notify_events. destruct smartSleep.
  - unfold wait, emit, hwMillis, read. cbn [app].
    destruct (wait_loop env fuel _ _ w) as [[[u1 w1] e1]|] eqn:E; [|discriminate].
    cbn. intros [= _ <- <-].
    destruct (wait_loop_result _ _ _ _ _ _ _ E) as (n & -> & -> & B).
    exists n. repeat split; [discriminate | intros _; exact B].
  - intros [= _ <- <-]. exists O. repeat split; discriminate.
Qed.

Lemma notify_controller_ends (smartSleep : bool) (w : world) :
  (smartSleep = true ->
   exists k,
     MY_SMART_SLEEP_WAIT_DURATION_MS cfg
     <= uint32 (clock_after env k (timer0_millis w) (procs w) - timer0_millis w)) ->
  exists fuel w' e, notify_controller cfg env fuel smartSleep w = Some (tt, w', e).
Proof.
  intros H. unfold notify_controller. destruct smartSleep.
  - destruct (H eq_refl) as (k & Hk).
    destruct (wait_loop_ends _ _ k w Hk) as (fuel & w' & e & E).
    exists fuel. unfold wait, emit, hwMillis, read. cbn [app].
    rewrite E. cbn. now eexists _, _.
  - now exists O, w, [].
Qed.

Lemma notify_events_quiet (smartSleep : bool) (n : nat) :
  power_downs (notify_events cfg smartSleep n) = []
  /\ tick_count (notify_events cfg smartSleep n) = 0.
Proof.
  unfold notify_events. destruct smartSleep; cbn; [|now split].
  split; [apply power_downs_process | apply tick_count_process].
Qed.

End SmartSleepWait.

(** When the wait for the transport ends, the transport answered ready
    at the last poll, or the request is used up, or the reconnect timeout
    has run out; and the time waited is not negative. *)
Lemma wait_for_transport_exit (cfg : config) (env : environment) (fuel : nat)
  (ms enter : Z) :
  forall delta w d w' e,
    0 <= delta ->
    wait_for_transport cfg env fuel ms enter delta w = Some (d, w', e) ->
    0 <= d
    /\ (transport env (Nat.pred (polls w')) = true
        \/ ms <= d
        \/ MY_SLEEP_TRANSPORT_RECONNECT_TIMEOUT_MS cfg <= d).
Proof.
  induction fuel as [|fuel IH]; intros delta w d w' e Hd;
    rewrite wait_for_transport_step; cbv zeta;
    destruct (transport env (polls w)) eqn:T; cbn [negb andb];
    destruct (Z.ltb_spec delta ms);
    destruct (Z.ltb_spec delta (MY_SLEEP_TRANSPORT_RECONNECT_TIMEOUT_MS cfg));
    cbn [andb]; try discriminate;
    try (intros [= <- <- _]; cbn; split; [assumption | tauto]).
  destruct (wait_for_transport cfg env fuel ms enter _ _) as [[[d1 w1] e1]|] eqn:E;
    [|discriminate].
  cbn. intros [= <- <- _].
  eapply IH; [|eassumption].
  unfold uint32. apply Z.mod_pos_bound. lia.
Qed.

(** ** X1, X2: time accounting in every run *)

Lemma nominal_pos_in_table (wdto : Z) :
  0 < nominal_ms wdto -> In wdto (map fst full_table).
Proof.
  unfold nominal_ms.
  repeat match goal with
         | |- context [?a =? ?b] => destruct (Z.eqb_spec a b); [subst; cbn; tauto|]
         end.
  lia.
Qed.

(** X1.  Whatever interrupts and callbacks do, [myInternalSleep ms] never
    enters hardware sleeps whose nominal lengths add up to more than [ms],
    and every hardware sleep it enters has the watchdog armed with one of
    the ten selectors of the table: a timed request never sleeps without
    a timeout. *)
Theorem myInternalSleep_never_oversleeps
  (cfg : config) (env : environment) (ms : Z) (w : world) :
  0 <= ms ->
  let '(why, w', e) := myInternalSleep cfg env ms w in
  slept e <= ms
  /\ Forall (fun wdto => In wdto (map fst full_table)) (power_downs e)
  /\ ~ In WDTO_SLEEP_FOREVER (power_downs e).
Proof.
  intros Hms. pose proof (accounted_myInternalSleep cfg env ms w Hms) as A.
  destruct (myInternalSleep cfg env ms w) as [[why w'] e].
  destruct A as (_ & _ & F & S). rewrite Forall_forall in F.
  split; [exact S|]. split.
  - rewrite Forall_forall. intros wdto I. apply nominal_pos_in_table, F, I.
  - intros I. apply F in I. cbn in I. lia.
Qed.

Lemma myInternalSleep_never_oversleeps_witness :
  let '(why, w', e) := myInternalSleep mysensors env_interrupt 20000 w_boot in
  slept e <= 20000
  /\ Forall (fun wdto => In wdto (map fst full_table)) (power_downs e)
  /\ ~ In WDTO_SLEEP_FOREVER (power_downs e).
Proof.
  apply (myInternalSleep_never_oversleeps mysensors env_interrupt 20000 w_boot).
  lia.
Defined.

(** X2.  In every run of [myInternalSleep ms] the millisecond counter ends
    up advanced (modulo 2^32) by exactly the nominal lengths of the
    hardware sleeps that ended with the flag clear; a sleep that ended with
    the flag set contributes nothing, and the total correction is never
    more than [ms]. *)
Theorem myInternalSleep_credits_clock
  (cfg : config) (env : environment) (ms : Z) (w : world) :
  0 <= ms ->
  let '(why, w', e) := myInternalSleep cfg env ms w in
  uint32 (timer0_millis w') = uint32 (timer0_millis w + credited e)
  /\ 0 <= credited e <= slept e
  /\ credited e <= ms.
Proof.
  intros Hms. pose proof (accounted_myInternalSleep cfg env ms w Hms) as A.
  destruct (myInternalSleep cfg env ms w) as [[why w'] e].
  destruct A as (T & C & _ & S). split; [exact T|]. split; [exact C | lia].
Qed.

Lemma myInternalSleep_credits_clock_witness :
  let '(why, w', e) := myInternalSleep mysensors env_interrupt 20000 w_boot in
  uint32 (timer0_millis w') = uint32 (timer0_millis w_boot + credited e)
  /\ 0 <= credited e <= slept e
  /\ credited e <= 20000.
Proof.
  apply (myInternalSleep_credits_clock mysensors env_interrupt 20000 w_boot).
  lia.
Defined.

(** ** X3: requests below the smallest quantum *)

Lemma nap_skip (env : environment) (wdto q ms : Z) (w : world) :
  ms < q -> nap env wdto q ms w = (Next ms, w, []).
Proof. intros H. unfold nap. destruct (Z.leb_spec q ms); [lia | reflexivity]. Qed.

Lemma naps_in_turn_skip (env : environment) (table : list (Z * Z))
  (k : M (flow Z)) (ms : Z) (w : world) :
  Forall (fun p => ms < snd p) table ->
  naps_in_turn env table k ms w = k w.
Proof.
  induction 1 as [|[wdto q] table Hq _ IH]; [reflexivity|].
  cbn [naps_in_turn]. unfold bindF. rewrite nap_skip by exact Hq.
  rewrite IH. now destruct (k w) as [[f w'] e].
Qed.

(** X3.  A request of less than 15 ms is not slept at all:
    [myInternalSleep] enters no hardware sleep and leaves the clock and
    the flag alone; it only flushes the serial port and invokes the
    callback once, if there is one, and returns the callback's value. *)
Theorem myInternalSleep_below_15_does_not_sleep
  (cfg : config) (env : environment) (ms : Z) (w : world) :
  ms < 15 ->
  let '(why, w', e) := myInternalSleep cfg env ms w in
  power_downs e = []
  /\ timer0_millis w' = timer0_millis w
  /\ wokeUpWhy w' = wokeUpWhy w
  /\ why = match tick env with Some f => int8 (f (ticks w)) | None => 0 end
  /\ tick_count e = match tick env with Some _ => 1 | None => 0 end.
Proof.
  intros Hms. rewrite myInternalSleep_unfold.
  unfold returned, bind, bindF.
  destruct (MY_DISABLED_SERIAL cfg); cbn [ret emit];
    rewrite while_8s_skip by lia;
    rewrite naps_in_turn_skip by (repeat constructor; cbn; lia);
    unfold final_tick; destruct (tick env) as [f|]; cbn; now repeat split.
Qed.

Lemma myInternalSleep_below_15_does_not_sleep_witness :
  let '(why, w', e) := myInternalSleep mysensors env_calm 14 w_boot in
  power_downs e = []
  /\ timer0_millis w' = timer0_millis w_boot
  /\ wokeUpWhy w' = wokeUpWhy w_boot
  /\ why = match tick env_calm with Some f => int8 (f (ticks w_boot)) | None => 0 end
  /\ tick_count e = match tick env_calm with Some _ => 1 | None => 0 end.
Proof.
  apply (myInternalSleep_below_15_does_not_sleep mysensors env_calm 14 w_boot).
  lia.
Defined.

(** ** X4: how [mySleep] resolves the wake reason *)



(** ** X6, X7: the ADC and the other registers *)

Lemma mySleep_registers
  (cfg : config) (env : environment) (ms : Z) (w : world) :
  let '(why, w', e) := mySleep cfg env ms w in
  ADCSRA w' = ADCSRA w
  /\ ADENsave w' = Z.land (ADCSRA w) (Z.shiftl 1 ADEN)
  /\ WDTCSR w' = WDTCSR w
  /\ polls w' = polls w
  /\ procs w' = procs w.
Proof.
  rewrite mySleep_run.
  assert (G : forall w1,
             keeps_registers (before_sleep w) None w1 [] ->
             ADCSRA (after_sleep w1) = ADCSRA w
             /\ ADENsave (after_sleep w1) = Z.land (ADCSRA w) (Z.shiftl 1 ADEN)
             /\ WDTCSR (after_sleep w1) = WDTCSR w
             /\ polls (after_sleep w1) = polls w
             /\ procs (after_sleep w1) = procs w).
  { intros w1 (A & B & C & D & E).
    unfold after_sleep. cbn [ADCSRA ADENsave WDTCSR polls procs set_ADCSRA set_wokeUpWhy].
    rewrite A, B, C, D, E. unfold before_sleep.
    cbn [ADCSRA ADENsave WDTCSR polls procs set_ADCSRA set_ADENsave set_wokeUpWhy].
    split; [apply clear_then_restore_bit; discriminate | now repeat split]. }
  destruct (0 <? ms).
  - pose proof (myInternalSleep_keeps env cfg ms (before_sleep w)) as K.
    destruct (myInternalSleep cfg env ms (before_sleep w)) as [[why w1] e].
    apply G. exact K.
  - unfold _doPowerDown. apply G.
    destruct (isr env (naps (before_sleep w))); now repeat split.
Qed.

(** X6.  [mySleep] hands the ADC control register back as it found it,
    whatever happens during the sleep; it also leaves the watchdog
    control register as it was and does not deal with the transport.  The
    saved copy [ADENsave] holds the ADC enable bit as it was on entry. *)
Theorem mySleep_restores_registers
  (cfg : config) (env : environment) (ms : Z) (w : world) :
  let '(why, w', e) := mySleep cfg env ms w in
  ADCSRA w' = ADCSRA w
  /\ ADENsave w' = Z.land (ADCSRA w) (Z.shiftl 1 ADEN)
  /\ WDTCSR w' = WDTCSR w
  /\ polls w' = polls w
  /\ procs w' = procs w.
Proof. apply mySleep_registers. Qed.

(** X7.  Between [_pre_doPowerDown] and [_post_doPowerDown] the ADC is
    off: [_pre_doPowerDown] clears the enable bit of ADCSRA and no other
    bit, [myInternalSleep] does not touch the register, and
    [_post_doPowerDown] then gives the register its old value. *)
Theorem adc_off_while_asleep
  (cfg : config) (env : environment) (ms : Z) (w : world) :
  let w1 := snd (fst (_pre_doPowerDown w)) in
  let w2 := snd (fst (myInternalSleep cfg env ms w1)) in
  Z.testbit (ADCSRA w1) ADEN = false
  /\ (forall i, 0 <= i -> i <> ADEN ->
      Z.testbit (ADCSRA w1) i = Z.testbit (ADCSRA w) i)
  /\ ADCSRA w2 = ADCSRA w1
  /\ ADCSRA (snd (fst (_post_doPowerDown w2))) = ADCSRA w.
Proof.
  cbv zeta.
  pose proof (myInternalSleep_keeps env cfg ms (snd (fst (_pre_doPowerDown w)))) as K.
  destruct (myInternalSleep cfg env ms (snd (fst (_pre_doPowerDown w))))
    as [[why w2] e].
  destruct K as (A & B & _). cbn [fst snd].
  unfold _post_doPowerDown, write. cbn [fst snd ADCSRA set_ADCSRA].
  rewrite A, B.
  unfold _pre_doPowerDown, bind, read, write.
  cbn [fst snd ADCSRA ADENsave set_ADCSRA set_ADENsave].
  change (Z.shiftl 1 ADEN) with (2 ^ 7). change ADEN with 7.
  split; [|split; [|split]].
  - rewrite Z.land_spec, Z.lnot_spec by lia.
    rewrite Z.pow2_bits_true by lia. now rewrite andb_false_r.
  - intros i Hi Ni. rewrite Z.land_spec, Z.lnot_spec by lia.
    rewrite Z.pow2_bits_false by lia. now rewrite andb_true_r.
  - reflexivity.
  - change (2 ^ 7) with (Z.shiftl 1 7). apply clear_then_restore_bit. lia.
Qed.

Lemma adc_off_while_asleep_witness :
  let w1 := snd (fst (_pre_doPowerDown w_boot)) in
  let w2 := snd (fst (myInternalSleep mysensors env_calm 9015 w1)) in
  Z.testbit (ADCSRA w1) ADEN = false
  /\ Z.testbit (ADCSRA w1) 0 = Z.testbit (ADCSRA w_boot) 0
  /\ ADCSRA w2 = ADCSRA w1
  /\ ADCSRA (snd (fst (_post_doPowerDown w2))) = ADCSRA w_boot.
Proof.
  destruct (adc_off_while_asleep mysensors env_calm 9015 w_boot)
    as (H1 & H2 & H3 & H4).
  exact (conj H1 (conj (H2 0 ltac:(lia) ltac:(discriminate)) (conj H3 H4))).
Defined.

(** ** X5, X8, X9: [snooze] from end to end *)

Lemma mySleep_quiet (cfg : config) (env : environment) (ms : Z) (w : world) :
  quiet env -> 0 < ms ->
  exists w',
    mySleep cfg env ms w
    = (MY_WAKE_UP_BY_TIMER cfg, w', undisturbed_events cfg env ms)
    /\ wokeUpWhy w' = 0
    /\ uint32 (timer0_millis w') = uint32 (timer0_millis w + (ms - unslept ms)).
Proof.
  intros Q Hms. rewrite mySleep_run.
  destruct (Z.ltb_spec 0 ms); [|lia].
  destruct (myInternalSleep_quiet cfg env Q ms (before_sleep w) ltac:(lia) eq_refl)
    as (w1 & -> & _ & T).
  exists (after_sleep w1). split; [reflexivity|]. split; [reflexivity|].
  exact T.
Qed.

Lemma snooze_sleep_eq (cfg : config) (env : environment) (fuel : nat) (ms : Z)
  (smartSleep : bool) (w : world) :
  snooze_sleep cfg env fuel ms smartSleep w
  = match notify_controller cfg env fuel smartSleep w with
    | None => None
    | Some (_, w2, e2) =>
        Some (let '(why, w', e1) := mySleep cfg env ms w2 in
              (why, w',
               e2 ++ going_to_sleep ++ e1 ++ [EvIndication INDICATION_WAKEUP]))
    end.
Proof.
  unfold snooze_sleep.
  destruct (notify_controller cfg env fuel smartSleep w) as [[[u w2] e2]|];
    [|reflexivity].
  rewrite power_down_transport_and_sleep_run.
  now destruct (mySleep cfg env ms w2) as [[why w'] e1].
Qed.

Lemma snooze_ready_eq (cfg : config) (env : environment) (fuel : nat) (ms : Z)
  (smartSleep : bool) (w : world) :
  transport env (polls w) = true ->
  snooze cfg env fuel ms smartSleep w
  = snooze_sleep cfg env fuel ms smartSleep (set_polls (S (polls w)) w).
Proof.
  intros T. unfold snooze, isTransportReady. rewrite T. cbn [negb].
  destruct (snooze_sleep cfg env fuel ms smartSleep (set_polls (S (polls w)) w))
    as [[[why w'] e]|]; reflexivity.
Qed.

(** A run of [snooze] that found the transport ready. *)
Lemma snooze_ready_result (cfg : config) (env : environment) (fuel : nat)
  (ms : Z) (smartSleep : bool) (w : world) (why : Z) (w' : world)
  (e : list event) :
  transport env (polls w) = true ->
  snooze cfg env fuel ms smartSleep w = Some (why, w', e) ->
  exists n e1,
    let w2 := Nat.iter n (processed env) (set_polls (S (polls w)) w) in
    mySleep cfg env ms w2 = (why, w', e1)
    /\ e = notify_events cfg smartSleep n ++ going_to_sleep ++ e1
           ++ [EvIndication INDICATION_WAKEUP]
    /\ (smartSleep = false -> n = O)
    /\ (smartSleep = true ->
        MY_SMART_SLEEP_WAIT_DURATION_MS cfg
        <= uint32 (timer0_millis w2 - timer0_millis w)).
Proof.
  intros T E. rewrite (snooze_ready_eq cfg env fuel ms smartSleep w T) in E.
  rewrite snooze_sleep_eq in E.
  destruct (notify_controller cfg env fuel smartSleep (set_polls (S (polls w)) w))
    as [[[u w2] e2]|] eqn:N; [|discriminate].
  destruct (notify_controller_result cfg env _ _ _ _ _ _ N) as (n & -> & -> & A & B).
  destruct (mySleep cfg env ms _) as [[why1 w1] e1] eqn:Es.
  injection E as <- <- <-.
  exists n, e1. cbv zeta. split; [exact Es|]. split; [reflexivity|].
  split; [exact A | exact B].
Qed.

(** With the transport ready [snooze] returns: at once without smart
    sleep, and with enough fuel for the wait of a smart sleep when the
    clock moves on. *)
Lemma snooze_ready_ends (cfg : config) (env : environment) (ms : Z)
  (smartSleep : bool) (w : world) :
  transport env (polls w) = true ->
  (smartSleep = false ->
   forall fuel, snooze cfg env fuel ms smartSleep w <> None)
  /\ ((smartSleep = true ->
       exists k,
         MY_SMART_SLEEP_WAIT_DURATION_MS cfg
         <= uint32 (clock_after env k (timer0_millis w) (procs w)
                    - timer0_millis w)) ->
      exists fuel, snooze cfg env fuel ms smartSleep w <> None).
Proof.
  intros T. split.
  - intros -> fuel. rewrite (snooze_ready_eq cfg env fuel ms false w T).
    rewrite snooze_sleep_eq. cbn. discriminate.
  - intros H.
    destruct (notify_controller_ends cfg env smartSleep (set_polls (S (polls w)) w) H)
      as (fuel & w2 & e2 & N).
    exists fuel. rewrite (snooze_ready_eq cfg env fuel ms smartSleep w T).
    rewrite snooze_sleep_eq, N. discriminate.
Qed.

(** X8.  When [isTransportReady()] is true on entry, [snooze] polls the
    transport once and does not wait for it.  Without smart sleep it
    returns for any fuel; with smart sleep it returns once the wait has
    seen [MY_SMART_SLEEP_WAIT_DURATION_MS] pass, which it does when the
    clock moves on.  It hands the whole of [ms] to [mySleep], started in
    the world the notification left ([n] calls of [_process()] later), and
    returns [mySleep]'s result; the notification, [transportDisable] and
    the sleep indication precede the events of the sleep, the wake-up
    indication follows them. *)
Theorem snooze_with_transport_ready
  (cfg : config) (env : environment) (ms : Z) (smartSleep : bool) (w : world) :
  transport env (polls w) = true ->
  (forall fuel why w' e,
      snooze cfg env fuel ms smartSleep w = Some (why, w', e) ->
      exists n e1,
        let w2 := Nat.iter n (processed env) (set_polls (S (polls w)) w) in
        mySleep cfg env ms w2 = (why, w', e1)
        /\ e = notify_events cfg smartSleep n ++ going_to_sleep ++ e1
               ++ [EvIndication INDICATION_WAKEUP]
        /\ polls w' = S (polls w)
        /\ (smartSleep = false -> n = O)
        /\ (smartSleep = true ->
            MY_SMART_SLEEP_WAIT_DURATION_MS cfg
            <= uint32 (timer0_millis w2 - timer0_millis w)))
  /\ (smartSleep = false ->
      forall fuel, snooze cfg env fuel ms smartSleep w <> None)
  /\ ((smartSleep = true ->
       exists k,
         MY_SMART_SLEEP_WAIT_DURATION_MS cfg
         <= uint32 (clock_after env k (timer0_millis w) (procs w)
                    - timer0_millis w)) ->
      exists fuel, snooze cfg env fuel ms smartSleep w <> None).
Proof.
  intros T. split; [|exact (snooze_ready_ends cfg env ms smartSleep w T)].
  intros fuel why w' e E.
  destruct (snooze_ready_result cfg env fuel ms smartSleep w why w' e T E)
    as (n & e1 & Es & Ee & A & B).
  exists n, e1. cbv zeta in *.
  split; [exact Es|]. split; [exact Ee|]. split; [|split; assumption].
  pose proof (mySleep_registers cfg env ms
                (Nat.iter n (processed env) (set_polls (S (polls w)) w))) as R.
  rewrite Es in R. destruct R as (_ & _ & _ & P & _). rewrite P.
  now destruct (iter_processed_keeps env n (set_polls (S (polls w)) w))
    as (_ & -> & _).
Qed.

Lemma snooze_with_transport_ready_witness :
  (exists n e1,
      let w2 := Nat.iter n (processed env_ready) (set_polls 1 w_boot) in
      mySleep mysensors env_ready 9015 w2
      = (-1, mkWorld 0 10015 128 128 0 3 2 1 1, e1)
      /\ [EvHeartbeat; EvWait 500; EvProcess; EvTransportDisable;
          EvIndication INDICATION_SLEEP; EvFlush;
          EvPowerDown WDTO_8S 0 0; EvTick 0; EvPowerDown WDTO_1S 0 0;
          EvPowerDown WDTO_15MS 0 0; EvTick 0; EvIndication INDICATION_WAKEUP]
         = notify_events mysensors true n ++ going_to_sleep ++ e1
           ++ [EvIndication INDICATION_WAKEUP]
      /\ polls (mkWorld 0 10015 128 128 0 3 2 1 1) = 1%nat
      /\ (true = false -> n = O)
      /\ (true = true ->
          MY_SMART_SLEEP_WAIT_DURATION_MS mysensors
          <= uint32 (timer0_millis w2 - timer0_millis w_boot)))
  /\ (exists fuel, snooze mysensors env_ready fuel 9015 true w_boot <> None)
  /\ (forall fuel, snooze mysensors env_ready fuel 9015 false w_boot <> None).
Proof.
  destruct (snooze_with_transport_ready mysensors env_ready 9015 true w_boot eq_refl)
    as (A & _ & C).
  destruct (snooze_with_transport_ready mysensors env_ready 9015 false w_boot eq_refl)
    as (_ & B & _).
  split; [|split].
  - apply (A 1%nat). vm_compute. reflexivity.
  - apply C. intros _. exists 1%nat. vm_compute. discriminate.
  - apply B. reflexivity.
Defined.

Lemma env_ready_quiet : quiet env_ready.
Proof. split; [reflexivity | intros f n [= <-]; reflexivity]. Qed.

(** X5.  With the transport ready and nothing asking to wake, a timed
    [snooze ms] returns [MY_WAKE_UP_BY_TIMER]; its events are the smart
    sleep notification (if asked for), [transportDisable] and the sleep
    indication, the undisturbed decomposition of [ms], and the wake-up
    indication; it leaves the flag clear, and the millisecond counter is
    [ms - unslept ms] (more than [ms - 25], at most [ms]) ahead of where
    the notification left it: ahead of the entry value without smart
    sleep, and at least [MY_SMART_SLEEP_WAIT_DURATION_MS] more with it.
    [snooze] does return: for any fuel without smart sleep, and with
    enough fuel when the clock moves on during the wait of a smart
    sleep. *)
Theorem snooze_undisturbed
  (cfg : config) (env : environment) (ms : Z) (smartSleep : bool) (w : world) :
  transport env (polls w) = true -> quiet env -> 0 < ms ->
  (forall fuel why w' e,
      snooze cfg env fuel ms smartSleep w = Some (why, w', e) ->
      exists n,
        let w2 := Nat.iter n (processed env) (set_polls (S (polls w)) w) in
        why = MY_WAKE_UP_BY_TIMER cfg
        /\ e = notify_events cfg smartSleep n ++ going_to_sleep
               ++ undisturbed_events cfg env ms
               ++ [EvIndication INDICATION_WAKEUP]
        /\ wokeUpWhy w' = 0
        /\ uint32 (timer0_millis w')
           = uint32 (timer0_millis w2 + (ms - unslept ms))
        /\ ms - 25 < ms - unslept ms <= ms
        /\ (smartSleep = false ->
            uint32 (timer0_millis w')
            = uint32 (timer0_millis w + (ms - unslept ms)))
        /\ (smartSleep = true ->
            MY_SMART_SLEEP_WAIT_DURATION_MS cfg
            <= uint32 (timer0_millis w2 - timer0_millis w)))
  /\ (smartSleep = false ->
      forall fuel, snooze cfg env fuel ms smartSleep w <> None)
  /\ ((smartSleep = true ->
       exists k,
         MY_SMART_SLEEP_WAIT_DURATION_MS cfg
         <= uint32 (clock_after env k (timer0_millis w) (procs w)
                    - timer0_millis w)) ->
      exists fuel, snooze cfg env fuel ms smartSleep w <> None).
Proof.
  intros T Q Hms. split; [|exact (snooze_ready_ends cfg env ms smartSleep w T)].
  intros fuel why w' e E.
  destruct (snooze_ready_result cfg env fuel ms smartSleep w why w' e T E)
    as (n & e1 & Es & Ee & A & B).
  exists n. cbv zeta in *.
  destruct (mySleep_quiet cfg env ms
              (Nat.iter n (processed env) (set_polls (S (polls w)) w)) Q Hms)
    as (w1 & Eq & F & C).
  rewrite Eq in Es. injection Es as <- <- <-.
  split; [reflexivity|]. split; [exact Ee|]. split; [exact F|].
  split; [exact C|]. split; [pose proof (unslept_bound ms); lia|].
  split; [|exact B].
  intros S. rewrite (A S) in C. exact C.
Qed.

Lemma snooze_undisturbed_witness :
  (exists n,
      let w2 := Nat.iter n (processed env_ready) (set_polls 1 w_boot) in
      -1 = MY_WAKE_UP_BY_TIMER mysensors
      /\ [EvHeartbeat; EvWait 500; EvProcess; EvTransportDisable;
          EvIndication INDICATION_SLEEP; EvFlush;
          EvPowerDown WDTO_8S 0 0; EvTick 0; EvPowerDown WDTO_1S 0 0;
          EvPowerDown WDTO_15MS 0 0; EvTick 0; EvIndication INDICATION_WAKEUP]
         = notify_events mysensors true n ++ going_to_sleep
           ++ undisturbed_events mysensors env_ready 9015
           ++ [EvIndication INDICATION_WAKEUP]
      /\ wokeUpWhy (mkWorld 0 10015 128 128 0 3 2 1 1) = 0
      /\ uint32 (timer0_millis (mkWorld 0 10015 128 128 0 3 2 1 1))
         = uint32 (timer0_millis w2 + (9015 - unslept 9015))
      /\ 9015 - 25 < 9015 - unslept 9015 <= 9015
      /\ (true = false ->
          uint32 (timer0_millis (mkWorld 0 10015 128 128 0 3 2 1 1))
          = uint32 (timer0_millis w_boot + (9015 - unslept 9015)))
      /\ (true = true ->
          MY_SMART_SLEEP_WAIT_DURATION_MS mysensors
          <= uint32 (timer0_millis w2 - timer0_millis w_boot)))
  /\ (exists fuel, snooze mysensors env_ready fuel 9015 true w_boot <> None).
Proof.
  destruct (snooze_undisturbed mysensors env_ready 9015 true w_boot eq_refl
              env_ready_quiet ltac:(lia)) as (A & _ & C).
  split.
  - apply (A 1%nat). vm_compute. reflexivity.
  - apply C. intros _. exists 1%nat. vm_compute. discriminate.
Defined.

(** X9.  When [snooze] finds the transport not ready and nevertheless
    enters a hardware sleep, the wait for the transport ended with part
    of the request left, and it ended because the transport answered
    ready or because the reconnect timeout had run out; neither that wait
    nor the smart sleep notification after it sleeps; and what is then
    handed to [mySleep], in the world the notification left, is the rest
    of the request, a time above 0 and at most [ms], so a timed request is
    never turned into an indefinite sleep. *)
Theorem snooze_not_ready_sleeps_only_after_wait
  (cfg : config) (env : environment) (fuel : nat) (ms : Z)
  (smartSleep : bool) (w : world) (why : Z) (w' : world) (e : list event) :
  transport env (polls w) = false ->
  snooze cfg env fuel ms smartSleep w = Some (why, w', e) ->
  power_downs e <> [] ->
  exists d w3 e3 n e1,
    wait_for_transport cfg env fuel ms (timer0_millis w) 0
      (set_polls (S (polls w)) w) = Some (d, w3, e3)
    /\ 0 < ms - d <= ms
    /\ (transport env (Nat.pred (polls w3)) = true
        \/ MY_SLEEP_TRANSPORT_RECONNECT_TIMEOUT_MS cfg <= d)
    /\ power_downs e3 = []
    /\ power_downs (notify_events cfg smartSleep n) = []
    /\ (smartSleep = false -> n = O)
    /\ (smartSleep = true ->
        MY_SMART_SLEEP_WAIT_DURATION_MS cfg
        <= uint32 (timer0_millis (Nat.iter n (processed env) w3)
                   - timer0_millis w3))
    /\ mySleep cfg env (ms - d) (Nat.iter n (processed env) w3) = (why, w', e1)
    /\ e = e3 ++ notify_events cfg smartSleep n ++ going_to_sleep ++ e1
           ++ [EvIndication INDICATION_WAKEUP].
Proof.
  intros T E P. rewrite (snooze_not_ready cfg env fuel ms smartSleep w T) in E.
  destruct (wait_for_transport cfg env fuel ms (timer0_millis w) 0
              (set_polls (S (polls w)) w)) as [[[d w3] e3]|] eqn:W; [|discriminate].
  pose proof (wait_for_transport_events cfg env fuel ms _ _ _ _ _ _ W) as Ev.
  destruct (wait_for_transport_exit cfg env fuel ms _ 0 _ _ _ _ (Z.le_refl 0) W)
    as (D0 & X).
  destruct (Z.ltb_spec d ms) as [Lt|Ge].
  - rewrite snooze_sleep_eq in E.
    destruct (notify_controller cfg env fuel smartSleep w3)
      as [[[u w4] e4]|] eqn:N; [|discriminate].
    destruct (notify_controller_result cfg env _ _ _ _ _ _ N) as (n & -> & -> & A & B).
    destruct (mySleep cfg env (ms - d) _) as [[why1 w1] e1] eqn:Es.
    cbn [option_map prepend] in E. injection E as <- <- <-.
    exists d, w3, e3, n, e1. split; [reflexivity|]. split; [lia|].
    split; [destruct X as [X|[X|X]]; [now left | lia | now right]|].
    split; [rewrite Ev; apply power_downs_process|].
    split; [apply notify_events_quiet|].
    split; [exact A|]. split; [exact B|].
    split; [exact Es | reflexivity].
  - exfalso. injection E as _ _ <-. apply P. rewrite Ev. apply power_downs_process.
Qed.

Lemma snooze_not_ready_sleeps_only_after_wait_witness :
  exists d w3 e3 n e1,
    wait_for_transport mysensors env_calm 10 20000 (timer0_millis w_boot) 0
      (set_polls (S (polls w_boot)) w_boot) = Some (d, w3, e3)
    /\ 0 < 20000 - d <= 20000
    /\ (transport env_calm (Nat.pred (polls w3)) = true
        \/ MY_SLEEP_TRANSPORT_RECONNECT_TIMEOUT_MS mysensors <= d)
    /\ power_downs e3 = []
    /\ power_downs (notify_events mysensors true n) = []
    /\ (true = false -> n = O)
    /\ (true = true ->
        MY_SMART_SLEEP_WAIT_DURATION_MS mysensors
        <= uint32 (timer0_millis (Nat.iter n (processed env_calm) w3)
                   - timer0_millis w3))
    /\ mySleep mysensors env_calm (20000 - d) (Nat.iter n (processed env_calm) w3)
       = (-1, mkWorld 0 21000 128 128 0 2 2 12 11, e1)
    /\ repeat EvProcess 10
       ++ [EvHeartbeat; EvWait 500; EvProcess;
           EvTransportDisable; EvIndication INDICATION_SLEEP; EvFlush;
           EvPowerDown WDTO_8S 0 0; EvTick 0; EvPowerDown WDTO_2S 0 0; EvTick 0;
           EvIndication INDICATION_WAKEUP]
       = e3 ++ notify_events mysensors true n ++ going_to_sleep ++ e1
         ++ [EvIndication INDICATION_WAKEUP].
Proof.
  apply (snooze_not_ready_sleeps_only_after_wait mysensors env_calm 10 20000 true
           w_boot (-1) (mkWorld 0 21000 128 128 0 2 2 12 11)).
  - reflexivity.
  - vm_compute. reflexivity.
  - vm_compute. discriminate.
Defined.

(** ** X10: which requests are slept in full *)

Lemma cascade_rest_decompose (table : list (Z * Z)) :
  forall r, exists mask, r = pick mask table + cascade_rest table r.
Proof.
  induction table as [|[wdto q] table IH]; intros r.
  - exists []. reflexivity.
  - cbn [cascade_rest]. destruct (q <=? r).
    + destruct (IH (r - q)) as (mask & E). exists (true :: mask).
      cbn [pick]. lia.
    + destruct (IH r) as (mask & E). exists (false :: mask).
      cbn [pick]. lia.
Qed.

(** X10.  An undisturbed [myInternalSleep ms] sleeps the whole of [ms] if
    and only if [ms] is a multiple of 8000 plus a sum of quanta below
    8000 each taken at most once. *)
Theorem myInternalSleep_exact_iff
  (cfg : config) (env : environment) (ms : Z) (w : world) :
  quiet env -> wokeUpWhy w = 0 -> 0 < ms ->
  (slept (snd (myInternalSleep cfg env ms w)) = ms
   <-> exists k mask, 0 <= k /\ ms = 8000 * k + pick mask small_table).
Proof.
  intros Q F Hms.
  destruct (myInternalSleep_quiet cfg env Q ms w ltac:(lia) F) as (w' & -> & _).
  cbn [snd]. rewrite slept_undisturbed by lia. split.
  - intros E. assert (U : unslept ms = 0) by lia.
    unfold unslept in U.
    destruct (cascade_rest_decompose small_table (ms mod 8000)) as (mask & D).
    exists (ms / 8000), mask. split; [apply Z.div_pos; lia|].
    rewrite U, Z.add_0_r in D. rewrite <- D. apply Z.div_mod. lia.
  - intros (k & mask & _ & ->). rewrite unslept_pick. lia.
Qed.

Lemma myInternalSleep_exact_iff_witness :
  (slept (snd (myInternalSleep mysensors env_calm 9015 w_boot)) = 9015
   <-> exists k mask, 0 <= k /\ 9015 = 8000 * k + pick mask small_table).
Proof.
  apply (myInternalSleep_exact_iff mysensors env_calm 9015 w_boot).
  - exact env_calm_quiet.
  - reflexivity.
  - lia.
Defined.

(** ** X11: the order of the hardware sleeps in every run *)

Lemma select_length {A} (mask : list bool) (l : list A) :
  (length (select mask l) <= length l)%nat.
Proof.
  revert l. induction mask as [|b mask IH]; intros [|x l]; cbn; try lia.
  rewrite length_app. specialize (IH l). destruct b; cbn; lia.
Qed.

Section SleepOrder.

Variable env : environment.

Lemma nap_or_return_power_downs (wdto q : Z) (w : world) :
  power_downs (snd (nap_or_return env wdto q w)) = [wdto].
Proof.
  unfold nap_or_return, bind. rewrite myPowerDown_run.
  destruct (_doPowerDown_run env wdto w) as (w1 & -> & _ & _).
  destruct (wokeUpWhy w1 =? 0); cbn; [reflexivity|].
  destruct (negb _); reflexivity.
Qed.

Lemma tick_or_return_power_downs (w : world) :
  power_downs (snd (tick_or_return env w)) = [].
Proof.
  unfold tick_or_return. destruct (tick env) as [f|]; [|reflexivity].
  unfold bind, call_tick. destruct (negb _); reflexivity.
Qed.

Lemma final_tick_power_downs (w : world) :
  power_downs (snd (final_tick env w)) = [].
Proof. unfold final_tick. destruct (tick env) as [f|]; reflexivity. Qed.

Lemma nap_power_downs (wdto q ms : Z) (w : world) :
  exists b : bool,
    power_downs (snd (nap env wdto q ms w)) = if b then [wdto] else [].
Proof.
  unfold nap. destruct (q <=? ms); [|now exists false].
  exists true. unfold bindF.
  pose proof (nap_or_return_power_downs wdto q w) as N.
  destruct (nap_or_return env wdto q w) as [[[why|[]] w1] e1]; cbn in *.
  - exact N.
  - now rewrite app_nil_r.
Qed.

Lemma naps_in_turn_power_downs (table : list (Z * Z)) (k : M (flow Z)) :
  (forall w, power_downs (snd (k w)) = []) ->
  forall ms w, exists mask,
    power_downs (snd (naps_in_turn env table k ms w))
    = select mask (map fst table).
Proof.
  intros Hk. induction table as [|[wdto q] table IH]; intros ms w.
  - exists []. cbn. apply Hk.
  - cbn [naps_in_turn]. unfold bindF.
    destruct (nap_power_downs wdto q ms w) as (b & N).
    destruct (nap env wdto q ms w) as [[[why|ms'] w1] e1]; cbn [snd] in *.
    + exists [b]. cbn. rewrite N. now rewrite app_nil_r.
    + destruct (IH ms' w1) as (mask & E).
      destruct (naps_in_turn env table k ms' w1) as [[f w2] e2]; cbn [snd] in *.
      exists (b :: mask). rewrite power_downs_app, N, E. reflexivity.
Qed.

Lemma round_8s_power_downs (w : world) :
  power_downs
    (snd ((_ <~ nap_or_return env WDTO_8S 8000 ;; tick_or_return env) w))
  = [WDTO_8S].
Proof.
  unfold bindF.
  pose proof (nap_or_return_power_downs WDTO_8S 8000 w) as N.
  destruct (nap_or_return env WDTO_8S 8000 w) as [[[why|[]] w1] e1];
    cbn [snd] in *; [exact N|].
  pose proof (tick_or_return_power_downs w1) as T.
  destruct (tick_or_return env w1) as [[f w2] e2]; cbn [snd] in *.
  now rewrite power_downs_app, N, T.
Qed.

Lemma while_8s_power_downs (ms : Z) (w : world) :
  0 <= ms ->
  exists n,
    power_downs (snd (while_8s env ms w)) = repeat WDTO_8S n
    /\ Z.of_nat n <= ms / 8000.
Proof.
  funelim (while_8s env ms w); intros Hms.
  - exists O. split; [reflexivity|]. cbn. apply Z.div_pos; lia.
  - exists 1%nat. pose proof (round_8s_power_downs w) as R. rewrite Heq in R.
    split; [exact R|].
    assert (1 <= ms / 8000) by (apply Z.div_le_lower_bound; lia). cbn. lia.
  - pose proof (round_8s_power_downs w) as R. rewrite Heq in R. cbn [snd] in R.
    match goal with
    | IH : 0 <= _ -> exists _, _ |- _ => destruct (IH ltac:(lia)) as (n & E & B)
    end.
    destruct (while_8s env (ms - 8000) w1) as [[f w2] e2]; cbn [snd prepend] in *.
    exists (S n). rewrite power_downs_app, R, E. split; [reflexivity|].
    assert (D : ms / 8000 = (ms - 8000) / 8000 + 1).
    { replace ms with ((ms - 8000) + 1 * 8000) at 1 by lia.
      now rewrite Z.div_add by lia. }
    lia.
Qed.

End SleepOrder.

(** X11.  In every run of [myInternalSleep ms], whatever interrupts and
    callbacks do, the hardware sleeps come in descending order of length:
    first at most [ms / 8000] sleeps of 8 s, then a selection of the nine
    shorter quanta in the order 4 s, 2 s, ..., 15 ms, each at most once.
    So a request takes at most [ms / 8000 + 9] hardware sleeps. *)
Theorem myInternalSleep_sleeps_in_descending_order
  (cfg : config) (env : environment) (ms : Z) (w : world) :
  0 <= ms ->
  exists n mask,
    power_downs (snd (myInternalSleep cfg env ms w))
    = repeat WDTO_8S n ++ select mask (map fst small_table)
    /\ Z.of_nat n <= ms / 8000
    /\ Z.of_nat (length (power_downs (snd (myInternalSleep cfg env ms w))))
       <= ms / 8000 + 9.
Proof.
  intros Hms.
  assert (B : exists n mask,
             power_downs (snd (myInternalSleep cfg env ms w))
             = repeat WDTO_8S n ++ select mask (map fst small_table)
             /\ Z.of_nat n <= ms / 8000).
  { rewrite myInternalSleep_unfold.
    assert (C : forall w0, exists n mask,
               power_downs
                 (snd ((ms' <~ while_8s env ms ;;
                        naps_in_turn env small_table (final_tick env) ms') w0))
               = repeat WDTO_8S n ++ select mask (map fst small_table)
               /\ Z.of_nat n <= ms / 8000).
    { intros w0. unfold bindF.
      destruct (while_8s_power_downs env ms w0 Hms) as (n & E & Bn).
      destruct (while_8s env ms w0) as [[[why|ms'] w1] e1]; cbn [snd] in *.
      - exists n, []. split; [now rewrite app_nil_r | exact Bn].
      - destruct (naps_in_turn_power_downs env small_table (final_tick env)
                    (final_tick_power_downs env) ms' w1) as (mask & N).
        destruct (naps_in_turn env small_table (final_tick env) ms' w1)
          as [[f w2] e2]; cbn [snd] in *.
        exists n, mask. split; [now rewrite power_downs_app, E, N | exact Bn]. }
    unfold returned, bind.
    destruct (MY_DISABLED_SERIAL cfg); cbn [ret emit];
      destruct (C w) as (n & mask & E & Bn);
      destruct (bindF _ _ w) as [[[why|why] w1] e1]; cbn [snd app] in *;
      exists n, mask; now split. }
  destruct B as (n & mask & E & Bn). exists n, mask.
  split; [exact E|]. split; [exact Bn|].
  rewrite E, length_app, repeat_length.
  pose proof (select_length mask (map fst small_table)) as L.
  change (length (map fst small_table)) with 9%nat in L. lia.
Qed.

Lemma myInternalSleep_sleeps_in_descending_order_witness :
  exists n mask,
    power_downs (snd (myInternalSleep mysensors env_interrupt 20000 w_boot))
    = repeat WDTO_8S n ++ select mask (map fst small_table)
    /\ Z.of_nat n <= 20000 / 8000
    /\ Z.of_nat (length (power_downs (snd (myInternalSleep mysensors env_interrupt 20000 w_boot))))
       <= 20000 / 8000 + 9.
Proof.
  apply (myInternalSleep_sleeps_in_descending_order mysensors env_interrupt 20000 w_boot).
  lia.
Defined.
